(** * Policy conditions of kubernetes-nmstate

    A shallow embedding of
    [pkg/controller/nodenetworkconfigurationpolicy/policyconditions/conditions.go]:
    the four [setPolicy...] helpers, the decision block of [Update], the count
    of ready nodes, and the two entry points [Update] and [Reset] with their
    retry-on-conflict discipline.

    Go values are modelled as follows: [int] is a 64-bit two's complement
    integer carried by [Z] with the wrap-around of [+] written out; strings
    are [string]; a function that returns [error] and talks to the API server
    is a state-passing action over an abstract world that returns [Ok] for
    [nil] and [Err e] otherwise.  The calls to the logger have no effect on
    conditions, results or the cluster and are left out.  Go's [float64]
    values of the backoff are carried as rationals. *)

From Stdlib Require Import ZArith List String Ascii Bool Lia Relations DecimalString.
From Stdlib Require Import Permutation QArith Sorted.
Import ListNotations.

Open Scope string_scope.
Open Scope Z_scope.

(** ** Go's [int] *)

Module goint.

(** [int] is 64 bits wide on the platforms the operator is built for. *)
Definition MinInt : Z := - 2 ^ 63.
Definition MaxInt : Z := 2 ^ 63 - 1.

Definition inRange (z : Z) : Prop := MinInt <= z <= MaxInt.

(** Two's complement wrap-around of an exact result. *)
Definition wrap (z : Z) : Z := (z + 2 ^ 63) mod 2 ^ 64 - 2 ^ 63.

(** Go's [a + b] on [int]. *)
Definition add (a b : Z) : Z := wrap (a + b).

End goint.

(** ** The fragment of [fmt.Sprintf] used by the package *)

Module fmt.

(** The operands passed to [Sprintf] in this package are [int]s; strings
    are included for the [%s] verb. *)
Inductive arg : Type :=
  | IntArg (n : Z)
  | StrArg (s : string).

(** [%d] on an [int]: decimal digits, with a leading minus sign when
    negative. *)
Definition formatInt (n : Z) : string := NilEmpty.string_of_int (Z.to_int n).

Definition typed (a : arg) : string :=
  match a with
  | IntArg n => "int=" ++ formatInt n
  | StrArg s => "string=" ++ s
  end.

(** What [fmt] prints for a verb that does not fit its operand. *)
Definition badVerb (c : ascii) (a : option arg) : string :=
  "%!" ++ String c
    match a with
    | None => "(MISSING)"
    | Some x => "(" ++ typed x ++ ")"
    end.

(** Only the verbs [%d] and [%s] are interpreted; every other verb is
    rendered the way [fmt] renders an unknown one. *)
Definition verb (c : ascii) (a : arg) : string :=
  match a with
  | IntArg n => if Ascii.eqb c "d" then formatInt n else badVerb c (Some a)
  | StrArg s => if Ascii.eqb c "s" then s else badVerb c (Some a)
  end.

Definition extra (args : list arg) : string :=
  match args with
  | [] => ""
  | _ => "%!(EXTRA " ++ String.concat ", " (map typed args) ++ ")"
  end.

Fixpoint Sprintf (format : string) (a : list arg) : string :=
  match format with
  | EmptyString => extra a
  | String c rest =>
      if Ascii.eqb c "%" then
        match rest with
        | EmptyString => "%!(NOVERB)" ++ extra a
        | String v rest' =>
            if Ascii.eqb v "%" then String "%" (Sprintf rest' a)
            else
              match a with
              | [] => badVerb v None ++ Sprintf rest' []
              | x :: a' => verb v x ++ Sprintf rest' a'
              end
        end
      else String c (Sprintf rest a)
  end.

End fmt.

(** ** [k8s.io/api/core/v1] *)

Module corev1.

Inductive ConditionStatus : Type :=
  | ConditionTrue
  | ConditionFalse
  | ConditionUnknown.

Definition ConditionStatus_eqb (a b : ConditionStatus) : bool :=
  match a, b with
  | ConditionTrue, ConditionTrue => true
  | ConditionFalse, ConditionFalse => true
  | ConditionUnknown, ConditionUnknown => true
  | _, _ => false
  end.

Definition NodeConditionType := string.
Definition NodeReady : NodeConditionType := "Ready".

Record NodeCondition : Type := mkNodeCondition {
  Type_ : NodeConditionType;
  Status : ConditionStatus
  }.

Record NodeStatus : Type := mkNodeStatus {
  Conditions : list NodeCondition
  }.

Record Node : Type := mkNode {
  NodeName : string;
  NodeStatus_ : NodeStatus
  }.

End corev1.

(** ** [pkg/apis/nmstate/v1alpha1] *)

Module nmstatev1alpha1.

Import corev1.

(** Modelled from the spec: the condition types and reasons are string
    typed constants declared in the API package, which is not among the
    sources; the reason texts are the ones section 4.1 of the
    specification gives, the two types are the members of its [type]
    enumeration. *)
Definition ConditionType := string.
Definition ConditionReason := string.

Definition NodeNetworkConfigurationPolicyConditionAvailable : ConditionType := "Available".
Definition NodeNetworkConfigurationPolicyConditionDegraded : ConditionType := "Degraded".

Definition NodeNetworkConfigurationPolicyConditionConfigurationProgressing : ConditionReason :=
  "ConfigurationProgressing".
Definition NodeNetworkConfigurationPolicyConditionSuccessfullyConfigured : ConditionReason :=
  "SuccessfullyConfigured".
Definition NodeNetworkConfigurationPolicyConditionConfigurationNoMatchingNode : ConditionReason :=
  "ConfigurationNoMatchingNode".
Definition NodeNetworkConfigurationPolicyConditionFailedToConfigure : ConditionReason :=
  "FailedToConfigure".

(** Modelled from the spec: a condition is
    [{type, status, reason, message}] and its identity key is [type]
    (section 3). *)
Record Condition : Type := mkCondition {
  Type_ : ConditionType;
  Status : ConditionStatus;
  Reason : ConditionReason;
  Message : string
  }.

Definition ConditionList := list Condition.

(** Modelled from the spec: [ConditionList.Set] is the upsert of section 3,
    "if a condition of that type exists, its fields are overwritten in
    place (position preserved); otherwise it is appended".  The method
    itself lives in the API package. *)
Fixpoint ConditionList_Set (list : ConditionList) (conditionType : ConditionType)
    (status : ConditionStatus) (reason : ConditionReason) (message : string)
    : ConditionList :=
  match list with
  | [] => [mkCondition conditionType status reason message]
  | condition :: rest =>
      if String.eqb (Type_ condition) conditionType
      then mkCondition conditionType status reason message :: rest
      else condition :: ConditionList_Set rest conditionType status reason message
  end.

(** The condition of a given type, if the list has one. *)
Fixpoint ConditionList_Find (list : ConditionList) (conditionType : ConditionType)
    : option Condition :=
  match list with
  | [] => None
  | condition :: rest =>
      if String.eqb (Type_ condition) conditionType
      then Some condition
      else ConditionList_Find rest conditionType
  end.

Record NodeNetworkConfigurationPolicyStatus : Type := mkPolicyStatus {
  Conditions : ConditionList
  }.

(** Of the policy object only the fields the package reads or writes are
    kept, together with the resource version the API server compares on a
    status write. *)
Record NodeNetworkConfigurationPolicy : Type := mkPolicy {
  Name : string;
  ResourceVersion : N;
  PolicyStatus : NodeNetworkConfigurationPolicyStatus
  }.

(** [policy.Status.Conditions = conditions] *)
Definition withConditions (policy : NodeNetworkConfigurationPolicy)
    (conditions : ConditionList) : NodeNetworkConfigurationPolicy :=
  mkPolicy (Name policy) (ResourceVersion policy) (mkPolicyStatus conditions).

End nmstatev1alpha1.

(** ** [enactmentstatus/conditions] *)

Module enactmentconditions.

(** Modelled from the spec: the result of [Count] is read through the four
    accessors [Matching()], [Available()], [Failed()] and [NotMatching()],
    "four non-negative integers" (section 3).  The counter itself is a
    collaborator and is taken as a parameter below. *)
Record ConditionCount : Type := mkConditionCount {
  Matching : Z;
  Available : Z;
  Failed : Z;
  NotMatching : Z
  }.

End enactmentconditions.

(** ** The condition setters (conditions.go, lines 24-86) *)

Import nmstatev1alpha1.

Definition setPolicyProgressing (conditions : ConditionList) (message : string) : ConditionList :=
  let conditions :=
    ConditionList_Set conditions
      NodeNetworkConfigurationPolicyConditionDegraded
      corev1.ConditionUnknown
      NodeNetworkConfigurationPolicyConditionConfigurationProgressing
      "" in
  ConditionList_Set conditions
    NodeNetworkConfigurationPolicyConditionAvailable
    corev1.ConditionUnknown
    NodeNetworkConfigurationPolicyConditionConfigurationProgressing
    message.

Definition setPolicySuccess (conditions : ConditionList) (message : string) : ConditionList :=
  let conditions :=
    ConditionList_Set conditions
      NodeNetworkConfigurationPolicyConditionDegraded
      corev1.ConditionFalse
      NodeNetworkConfigurationPolicyConditionSuccessfullyConfigured
      "" in
  ConditionList_Set conditions
    NodeNetworkConfigurationPolicyConditionAvailable
    corev1.ConditionTrue
    NodeNetworkConfigurationPolicyConditionSuccessfullyConfigured
    message.

Definition setPolicyNotMatching (conditions : ConditionList) (message : string) : ConditionList :=
  let conditions :=
    ConditionList_Set conditions
      NodeNetworkConfigurationPolicyConditionDegraded
      corev1.ConditionFalse
      NodeNetworkConfigurationPolicyConditionConfigurationNoMatchingNode
      message in
  ConditionList_Set conditions
    NodeNetworkConfigurationPolicyConditionAvailable
    corev1.ConditionTrue
    NodeNetworkConfigurationPolicyConditionConfigurationNoMatchingNode
    message.

Definition setPolicyFailedToConfigure (conditions : ConditionList) (message : string) : ConditionList :=
  let conditions :=
    ConditionList_Set conditions
      NodeNetworkConfigurationPolicyConditionDegraded
      corev1.ConditionTrue
      NodeNetworkConfigurationPolicyConditionFailedToConfigure
      message in
  ConditionList_Set conditions
    NodeNetworkConfigurationPolicyConditionAvailable
    corev1.ConditionFalse
    NodeNetworkConfigurationPolicyConditionFailedToConfigure
    "".

(** ** The pure part of the [Update] closure *)

Import enactmentconditions.

(** Lines 112-120: the nested loop over the nodes and their status
    conditions, [numberOfReadyNodes += 1] for every condition entry whose
    type is [Ready] and whose status is [True]. *)
Definition isReadyTrue (condition : corev1.NodeCondition) : bool :=
  String.eqb (corev1.Type_ condition) corev1.NodeReady
  && corev1.ConditionStatus_eqb (corev1.Status condition) corev1.ConditionTrue.

Definition countNodeConditions (numberOfReadyNodes : Z) (node : corev1.Node) : Z :=
  fold_left
    (fun n condition => if isReadyTrue condition then goint.add n 1 else n)
    (corev1.Conditions (corev1.NodeStatus_ node))
    numberOfReadyNodes.

Definition numberOfReadyNodes (nodes : list corev1.Node) : Z :=
  fold_left countNodeConditions nodes 0.

(** Line 125. *)
Definition numberOfFinishedEnactments (enactmentsCount : ConditionCount) : Z :=
  goint.add
    (goint.add (Available enactmentsCount) (Failed enactmentsCount))
    (NotMatching enactmentsCount).

(** Lines 128-141: the decision block, acting on [policy.Status.Conditions]. *)
Definition updatePolicyConditions (conditions : ConditionList)
    (numberOfReadyNodes : Z) (enactmentsCount : ConditionCount) : ConditionList :=
  let numberOfFinishedEnactments := numberOfFinishedEnactments enactmentsCount in
  if numberOfFinishedEnactments <? numberOfReadyNodes then
    setPolicyProgressing conditions
      (fmt.Sprintf "Policy is progressing %d/%d nodes finished"
         [fmt.IntArg numberOfFinishedEnactments; fmt.IntArg numberOfReadyNodes])
  else
    if Matching enactmentsCount =? 0 then
      let message := "Policy does not match any node" in
      setPolicyNotMatching conditions message
    else if Failed enactmentsCount >? 0 then
      let message :=
        fmt.Sprintf "%d/%d nodes failed to configure"
          [fmt.IntArg (Failed enactmentsCount); fmt.IntArg (Matching enactmentsCount)] in
      setPolicyFailedToConfigure conditions message
    else
      let message :=
        fmt.Sprintf "%d/%d nodes successfully configured"
          [fmt.IntArg (Available enactmentsCount); fmt.IntArg (Available enactmentsCount)] in
      setPolicySuccess conditions message.

(** ** Calls that may fail and that act on the cluster *)

(** A Go function that returns [(A, error)] or just [error] and reaches the
    API server is an action on a world [W]: it yields [Ok a] where Go returns
    a [nil] error and [Err e] otherwise, together with the world it leaves
    behind.  The world is abstract: whatever other writers do to the cluster
    between two calls is part of the next call's transition. *)
Inductive Result (E A : Type) : Type :=
| Ok (a : A)
| Err (e : E).

Arguments Ok {E A} a.
Arguments Err {E A} e.

Definition Action (W E A : Type) : Type := W -> Result E A * W.

Definition bind {W E A B : Type} (m : Action W E A) (k : A -> Action W E B) : Action W E B :=
  fun w =>
    match m w with
    | (Ok a, w') => k a w'
    | (Err e, w') => (Err e, w')
    end.

Declare Scope action_scope.
Delimit Scope action_scope with action.
Notation "x <- m ;; k" := (bind m (fun x => k))
  (at level 100, m at next level, right associativity) : action_scope.

(** *** [github.com/pkg/errors] and [k8s.io/apimachinery/pkg/api/errors]

    Go's [error] is an interface; the two library functions the package
    applies to it are taken as the operations of that interface. *)

Module errors.
Class Wrapper (E : Type) : Type := { Wrap : E -> string -> E }.
End errors.

Module apierrors.
Class Classifier (E : Type) : Type := { IsConflict : E -> bool }.

(** [IsConflict] looks at the error value it is handed and reports a
    conflict for an API status error whose reason is Conflict.  What
    [errors.Wrap] returns is a value of the wrapping package's own type, not
    an API status: a wrapped error is not classified as a conflict, whatever
    its cause is. *)
Class OutermostOnly (E : Type) `{errors.Wrapper E} `{Classifier E} : Prop :=
  IsConflict_Wrap :
    forall (err : E) (message : string), IsConflict (errors.Wrap err message) = false.
End apierrors.

(** [if err != nil { return errors.Wrap(err, message) }] *)
Definition wrapping {W E A : Type} `{errors.Wrapper E}
    (m : Action W E A) (message : string) : Action W E A :=
  fun w =>
    match m w with
    | (Ok a, w') => (Ok a, w')
    | (Err err, w') => (Err (errors.Wrap err message), w')
    end.

(** *** [k8s.io/apimachinery/pkg/types] and the controller-runtime client *)

Module types.
Record NamespacedName : Type := mkNamespacedName {
  Namespace : string;
  Name : string
  }.
End types.

Module client.

(** [client.MatchingLabels] is a [map[string]string]; the package builds it
    with a single entry. *)
Definition MatchingLabels := list (string * string).

(** The four calls the package makes on [client.Client]:
    [Get] of a policy, [List] of enactments under a label filter, [List] of
    nodes, and [Status().Update] of a policy. *)
Record Client (W E Enactment : Type) : Type := mkClient {
  Get : types.NamespacedName -> Action W E NodeNetworkConfigurationPolicy;
  ListEnactments : MatchingLabels -> Action W E (list Enactment);
  ListNodes : Action W E (list corev1.Node);
  StatusUpdate : NodeNetworkConfigurationPolicy -> Action W E unit
  }.

Arguments Get {W E Enactment} _ _ _.
Arguments ListEnactments {W E Enactment} _ _ _.
Arguments ListNodes {W E Enactment} _ _.
Arguments StatusUpdate {W E Enactment} _ _ _.

End client.

(** *** [k8s.io/client-go/util/retry] *)

Module wait.

(** A [time.Duration] is a number of nanoseconds. *)
Definition Millisecond : Z := 1000000.

(** [wait.Backoff]: the delay before the first retry, the factor the delay
    is multiplied by after each sleep, the largest share of a delay that is
    added to it at random, and the number of attempts. *)
Record Backoff : Type := mkBackoff {
  Duration : Z;
  Factor : Q;
  Jitter : Q;
  Steps : nat
  }.

(** [time.Duration(x)] on a [float64]: the fraction is dropped. *)
Definition truncate (x : Q) : Z := Z.quot (Qnum x) (Z.pos (Qden x)).

(** [wait.Jitter(duration, maxFactor)]: the duration lengthened by a random
    share of it; [random] stands for the draw of [rand.Float64()], a number
    from 0 up to but not including 1. *)
Definition jitter (duration : Z) (maxFactor : Q) (random : Q) : Z :=
  let maxFactor := if Qle_bool maxFactor 0 then 1%Q else maxFactor in
  duration + truncate (random * maxFactor * inject_Z duration).

(** The duration of the next sleep: the current one multiplied by the
    factor, unless the factor is zero. *)
Definition next (duration : Z) (factor : Q) : Z :=
  if Qeq_bool factor 0 then duration else truncate (inject_Z duration * factor).

(** The sleeps of [wait.ExponentialBackoff], which the retry executor runs
    on: before every attempt but the first it sleeps for the current duration,
    with jitter when the backoff asks for it, and the duration of the next
    sleep is computed.  [randoms] are the draws of the successive sleeps.  The
    cap of a backoff is left out: [retry.DefaultRetry] sets none. *)
Fixpoint sleepsFrom (duration : Z) (factor maxJitter : Q) (randoms : list Q) (sleeps : nat)
    {struct sleeps} : list Z :=
  match sleeps, randoms with
  | S sleeps', random :: randoms' =>
      (if Qle_bool maxJitter 0 then duration else jitter duration maxJitter random)
      :: sleepsFrom (next duration factor) factor maxJitter randoms' sleeps'
  | _, _ => []
  end.

(** The sleeps of a run that makes [attempts] attempts. *)
Definition sleeps (backoff : Backoff) (randoms : list Q) (attempts : nat) : list Z :=
  sleepsFrom (Duration backoff) (Factor backoff) (Jitter backoff) randoms (pred attempts).

End wait.

Module retry.

(** client-go's [retry.DefaultRetry]: five attempts, 10 ms before each retry,
    factor 1.0, jitter 0.1. *)
Definition DefaultRetry : wait.Backoff :=
  wait.mkBackoff (10 * wait.Millisecond) 1%Q (1 # 10)%Q 5.

Section RetryOnConflict.
Context {W E : Type} `{apierrors.Classifier E}.

(** Modelled from the spec: the executor of section 4.2.  It runs [fn];
    a [nil] result ends the loop with [nil]; an error classified as a
    conflict is remembered and, while steps remain, [fn] is run again;
    any other error ends the loop with that error; when the steps are
    used up the last conflict error is returned. *)
Fixpoint onConflict (steps : nat) (fn : Action W E unit) (lastConflictErr : option E)
    : Action W E unit :=
  match steps with
  | O =>
      fun w =>
        match lastConflictErr with
        | None => (Ok tt, w)
        | Some err => (Err err, w)
        end
  | S steps' =>
      fun w =>
        match fn w with
        | (Ok _, w') => (Ok tt, w')
        | (Err err, w') =>
            if apierrors.IsConflict err
            then onConflict steps' fn (Some err) w'
            else (Err err, w')
        end
  end.

Definition RetryOnConflict (backoff : wait.Backoff) (fn : Action W E unit)
    : Action W E unit :=
  onConflict (wait.Steps backoff) fn None.

End RetryOnConflict.

End retry.

(** ** [Update] and [Reset] (conditions.go, lines 88-176) *)

Section PolicyConditions.

Context {W E Enactment : Type}.
Context `{errors.Wrapper E} `{apierrors.Classifier E}.

(** [enactmentconditions.Count] and the label that ties an enactment to its
    policy belong to packages that are not among the sources; they are
    parameters of the development. *)
Variable Count : list Enactment -> ConditionCount.
Variable EnactmentPolicyLabel : string.

Local Open Scope action_scope.

(** Lines 112-141 on the three objects read: the policy with its conditions
    updated in place. *)
Definition applyDecision (policy : NodeNetworkConfigurationPolicy)
    (enactments : list Enactment) (nodes : list corev1.Node)
    : NodeNetworkConfigurationPolicy :=
  let numberOfReadyNodes := numberOfReadyNodes nodes in
  let enactmentsCount := Count enactments in
  withConditions policy
    (updatePolicyConditions (Conditions (PolicyStatus policy))
       numberOfReadyNodes enactmentsCount).

(** The closure handed to [retry.RetryOnConflict] at line 93. *)
Definition updateClosure (cli : client.Client W E Enactment)
    (policyKey : types.NamespacedName) : Action W E unit :=
  policy <- wrapping (client.Get cli policyKey) "getting policy failed" ;;
  let policyLabelFilter := [(EnactmentPolicyLabel, Name policy)] in
  enactments <- wrapping (client.ListEnactments cli policyLabelFilter)
                  "getting enactments failed" ;;
  nodes <- wrapping (client.ListNodes cli) "getting nodes failed" ;;
  client.StatusUpdate cli (applyDecision policy enactments nodes).

Definition Update (cli : client.Client W E Enactment)
    (policyKey : types.NamespacedName) : Action W E unit :=
  retry.RetryOnConflict retry.DefaultRetry (updateClosure cli policyKey).

(** The closure handed to [retry.RetryOnConflict] at line 158. *)
Definition resetClosure (cli : client.Client W E Enactment)
    (policyKey : types.NamespacedName) : Action W E unit :=
  policy <- wrapping (client.Get cli policyKey) "getting policy failed" ;;
  client.StatusUpdate cli (withConditions policy []).

Definition Reset (cli : client.Client W E Enactment)
    (policyKey : types.NamespacedName) : Action W E unit :=
  retry.RetryOnConflict retry.DefaultRetry (resetClosure cli policyKey).

(** *** Vocabulary for the statements about attempts *)

(** An attempt of [fn] started in [w] ends in [w'] with an error that is
    classified as a conflict. *)
Definition conflicted (fn : Action W E unit) (w w' : W) : Prop :=
  exists err, fn w = (Err err, w') /\ apierrors.IsConflict err = true.

(** One of the three reads of an [Update] attempt started in [w] fails with
    [err]; [context] is the text the failure is wrapped with and [w'] the
    world right after the failed read. *)
Inductive ReadFailure (cli : client.Client W E Enactment)
    (policyKey : types.NamespacedName) (w : W) : E -> string -> W -> Prop :=
  | PolicyReadFailed err w' :
    client.Get cli policyKey w = (Err err, w') ->
    ReadFailure cli policyKey w err "getting policy failed" w'
  | EnactmentsReadFailed policy w1 err w' :
    client.Get cli policyKey w = (Ok policy, w1) ->
    client.ListEnactments cli [(EnactmentPolicyLabel, Name policy)] w1 = (Err err, w') ->
    ReadFailure cli policyKey w err "getting enactments failed" w'
  | NodesReadFailed policy w1 enactments w2 err w' :
    client.Get cli policyKey w = (Ok policy, w1) ->
    client.ListEnactments cli [(EnactmentPolicyLabel, Name policy)] w1 = (Ok enactments, w2) ->
    client.ListNodes cli w2 = (Err err, w') ->
    ReadFailure cli policyKey w err "getting nodes failed" w'.

(** An [Update] attempt started in [w] reads [policy], [enactments] and
    [nodes] in this order and reaches its status write in world [w3]. *)
Definition updateReads (cli : client.Client W E Enactment)
    (policyKey : types.NamespacedName) (w : W)
    (policy : NodeNetworkConfigurationPolicy) (enactments : list Enactment)
    (nodes : list corev1.Node) (w3 : W) : Prop :=
  exists w1 w2,
    client.Get cli policyKey w = (Ok policy, w1) /\
    client.ListEnactments cli [(EnactmentPolicyLabel, Name policy)] w1 = (Ok enactments, w2) /\
    client.ListNodes cli w2 = (Ok nodes, w3).

End PolicyConditions.

(** ** An in-memory API server for concrete runs

    A test double in the manner of controller-runtime's fake client: one
    object store with optimistic concurrency on the policy, and a schedule of
    what other writers do to the store right before each of our calls. *)

Module fake.

Inductive StatusReason : Type :=
  | StatusReasonNotFound
  | StatusReasonConflict
  | StatusReasonInternalError.

(** An API status error, possibly wrapped with context. *)
Inductive error : Type :=
  | StatusError (reason : StatusReason)
  | withMessage (cause : error) (message : string).

#[global] Instance wrapper : errors.Wrapper error := {| errors.Wrap := withMessage |}.

(** The classification looks at the outermost error only: a status error
    with reason Conflict is a conflict, a wrapped error is not. *)
Definition isConflict (err : error) : bool :=
  match err with
  | StatusError StatusReasonConflict => true
  | StatusError _ => false
  | withMessage _ _ => false
  end.

#[global] Instance classifier : apierrors.Classifier error :=
  {| apierrors.IsConflict := isConflict |}.

#[global] Instance outermostOnly : apierrors.OutermostOnly error :=
  fun _ _ => eq_refl.

(** What an enactment reports about its node. *)
Inductive Outcome : Type :=
  | Pending
  | ConfiguredOk
  | ConfigureFailed
  | NodeNotMatching.

Record Enactment : Type := mkEnactment {
  Labels : list (string * string);
  Report : Outcome
  }.

Definition EnactmentPolicyLabel : string := "nmstate.io/policy".

Definition tally (counts : ConditionCount) (enactment : Enactment) : ConditionCount :=
  match Report enactment with
  | Pending =>
      mkConditionCount (Matching counts + 1) (Available counts)
        (Failed counts) (NotMatching counts)
  | ConfiguredOk =>
      mkConditionCount (Matching counts + 1) (Available counts + 1)
        (Failed counts) (NotMatching counts)
  | ConfigureFailed =>
      mkConditionCount (Matching counts + 1) (Available counts)
        (Failed counts + 1) (NotMatching counts)
  | NodeNotMatching =>
      mkConditionCount (Matching counts) (Available counts)
        (Failed counts) (NotMatching counts + 1)
  end.

(** A stand-in for [enactmentconditions.Count]. *)
Definition Count (enactments : list Enactment) : ConditionCount :=
  fold_left tally enactments (mkConditionCount 0 0 0 0).

(** What another writer may do between two of our calls. *)
Inductive Interference : Type :=
  | WritePolicyStatus (name : string) (conditions : ConditionList)
  | ReplaceEnactments (enactments : list Enactment)
  | ReplaceNodes (nodes : list corev1.Node)
  | Fault (err : error).

Record Cluster : Type := mkCluster {
  policies : list NodeNetworkConfigurationPolicy;
  enactments : list Enactment;
  nodes : list corev1.Node;
  fault : option error;
  schedule : list (list Interference)
  }.

Definition bump (policy : NodeNetworkConfigurationPolicy) (conditions : ConditionList)
    : NodeNetworkConfigurationPolicy :=
  mkPolicy (Name policy) (N.succ (ResourceVersion policy)) (mkPolicyStatus conditions).

Definition store (name : string) (conditions : ConditionList)
    (stored : list NodeNetworkConfigurationPolicy) : list NodeNetworkConfigurationPolicy :=
  map (fun policy => if String.eqb (Name policy) name then bump policy conditions else policy)
    stored.

Definition lookup (name : string) (stored : list NodeNetworkConfigurationPolicy)
    : option NodeNetworkConfigurationPolicy :=
  find (fun policy => String.eqb (Name policy) name) stored.

Definition interfere (c : Cluster) (i : Interference) : Cluster :=
  match i with
  | WritePolicyStatus name conditions =>
      mkCluster (store name conditions (policies c)) (enactments c) (nodes c)
        (fault c) (schedule c)
  | ReplaceEnactments es =>
      mkCluster (policies c) es (nodes c) (fault c) (schedule c)
  | ReplaceNodes ns =>
      mkCluster (policies c) (enactments c) ns (fault c) (schedule c)
  | Fault err =>
      mkCluster (policies c) (enactments c) (nodes c) (Some err) (schedule c)
  end.

(** The other writers' turn before one of our calls. *)
Definition others (c : Cluster) : Cluster :=
  match schedule c with
  | [] => c
  | batch :: later =>
      fold_left interfere batch
        (mkCluster (policies c) (enactments c) (nodes c) (fault c) later)
  end.

(** A call is served after the other writers' turn; a pending fault makes
    it fail. *)
Definition serve {A : Type} (answer : Cluster -> Result error A * Cluster)
    : Action Cluster error A :=
  fun c =>
    let c := others c in
    match fault c with
    | Some err =>
        (Err err, mkCluster (policies c) (enactments c) (nodes c) None (schedule c))
    | None => answer c
    end.

Definition labelled (filter : client.MatchingLabels) (enactment : Enactment) : bool :=
  forallb
    (fun want =>
       existsb
         (fun have => String.eqb (fst have) (fst want) && String.eqb (snd have) (snd want))
         (Labels enactment))
    filter.

Definition statusUpdate (policy : NodeNetworkConfigurationPolicy) (c : Cluster)
    : Result error unit * Cluster :=
  match lookup (Name policy) (policies c) with
  | None => (Err (StatusError StatusReasonNotFound), c)
  | Some stored =>
      if N.eqb (ResourceVersion stored) (ResourceVersion policy)
      then (Ok tt,
            mkCluster (store (Name policy) (Conditions (PolicyStatus policy)) (policies c))
              (enactments c) (nodes c) (fault c) (schedule c))
      else (Err (StatusError StatusReasonConflict), c)
  end.

Definition cli : client.Client Cluster error Enactment :=
  client.mkClient Cluster error Enactment
    (fun key =>
       serve (fun c =>
         match lookup (types.Name key) (policies c) with
         | Some policy => (Ok policy, c)
         | None => (Err (StatusError StatusReasonNotFound), c)
         end))
    (fun filter => serve (fun c => (Ok (List.filter (labelled filter) (enactments c)), c)))
    (serve (fun c => (Ok (nodes c), c)))
    (fun policy => serve (statusUpdate policy)).

End fake.

(** ** The ready-node count in the specification's words *)

(** "ready" = presence of [(Ready, True)] among the node's status
    conditions (section 6). *)
Definition nodeIsReady (node : corev1.Node) : bool :=
  existsb isReadyTrue (corev1.Conditions (corev1.NodeStatus_ node)).

(** "count of nodes whose [Ready] status condition is currently [True]"
    (section 3): every ready node counts once. *)
Definition readyNodeCount (nodes : list corev1.Node) : Z :=
  Z.of_nat (List.length (filter nodeIsReady nodes)).

(** A node whose status lists the [Ready] condition twice. *)
Definition nodeReadyTwice : corev1.Node :=
  corev1.mkNode "node01"
    (corev1.mkNodeStatus
       [corev1.mkNodeCondition corev1.NodeReady corev1.ConditionTrue;
        corev1.mkNodeCondition corev1.NodeReady corev1.ConditionTrue]).

(** ** A recorder for the attempts of a retried closure *)

(** [logged fn] behaves as [fn] and appends the result of each run to a log
    carried next to the world. *)
Definition logged {W E : Type} (fn : Action W E unit)
    : Action (W * list (Result E unit)) E unit :=
  fun s =>
    match fn (fst s) with
    | (r, w') => (r, (w', (snd s ++ [r])%list))
    end.

(** The result of an attempt is an error classified as a conflict. *)
Definition isConflictResult {E : Type} `{apierrors.Classifier E} (r : Result E unit) : bool :=
  match r with
  | Ok _ => false
  | Err err => apierrors.IsConflict err
  end.

(** The client [cli] with its status write replaced by [update]. *)
Definition withStatusUpdate {W E Enactment : Type} (cli : client.Client W E Enactment)
    (update : NodeNetworkConfigurationPolicy -> Action W E unit)
    : client.Client W E Enactment :=
  client.mkClient W E Enactment
    (client.Get cli) (client.ListEnactments cli) (client.ListNodes cli) update.

(** ** Scenarios on the in-memory API server *)

Module scenario.

Import fake.

Definition policyKey : types.NamespacedName := types.mkNamespacedName "" "vlan100".

Definition degradedBefore : ConditionList :=
  [mkCondition "Degraded" corev1.ConditionTrue "FailedToConfigure"
     "1/3 nodes failed to configure";
   mkCondition "Available" corev1.ConditionFalse "FailedToConfigure" ""].

Definition policy (conditions : ConditionList) : NodeNetworkConfigurationPolicy :=
  mkPolicy "vlan100" 7 (mkPolicyStatus conditions).

Definition readyNode (name : string) : corev1.Node :=
  corev1.mkNode name
    (corev1.mkNodeStatus
       [corev1.mkNodeCondition "MemoryPressure" corev1.ConditionFalse;
        corev1.mkNodeCondition corev1.NodeReady corev1.ConditionTrue]).

Definition threeNodes : list corev1.Node :=
  [readyNode "node01"; readyNode "node02"; readyNode "node03"].

Definition enactment (report : Outcome) : Enactment :=
  mkEnactment [(EnactmentPolicyLabel, "vlan100")] report.

Definition twoOfThree : list Enactment :=
  [enactment ConfiguredOk; enactment ConfiguredOk; enactment Pending;
   mkEnactment [(EnactmentPolicyLabel, "bond0")] ConfigureFailed].

Definition threeOfThree : list Enactment :=
  [enactment ConfiguredOk; enactment ConfiguredOk; enactment ConfiguredOk;
   mkEnactment [(EnactmentPolicyLabel, "bond0")] ConfigureFailed].

(** Nobody else writes. *)
Definition quiet (conditions : ConditionList) : Cluster :=
  mkCluster [policy conditions] twoOfThree threeNodes None [].

(** While the first attempt is between its reads and its write, the third
    node reports success and another controller rewrites the policy status:
    the first write meets a newer resource version. *)
Definition conflictOnFirstWrite : Cluster :=
  mkCluster [policy []] twoOfThree threeNodes None
    [[]; []; []; [ReplaceEnactments threeOfThree; WritePolicyStatus "vlan100" degradedBefore]].

(** The same interference before the status write of [Reset], which makes two
    calls per attempt. *)
Definition conflictOnFirstReset : Cluster :=
  mkCluster [policy degradedBefore] twoOfThree threeNodes None
    [[]; [WritePolicyStatus "vlan100" degradedBefore]].

(** The first [Get] is answered with a conflict-shaped error; the store is
    quiet otherwise and all three enactments have finished. *)
Definition conflictOnFirstRead : Cluster :=
  mkCluster [policy []] threeOfThree threeNodes None
    [[Fault (StatusError StatusReasonConflict)]].

(** The policy is gone. *)
Definition policyMissing : Cluster :=
  mkCluster [] twoOfThree threeNodes None [].

(** The API server fails the [n]-th call from now (counting from 0). *)
Definition outageAt (n : nat) : Cluster :=
  mkCluster [policy degradedBefore] twoOfThree threeNodes None
    (repeat [] n ++ [[Fault (StatusError StatusReasonInternalError)]])%list.

(** A closure over a countdown: it meets a conflict while the counter is
    positive and succeeds at zero. *)
Definition conflictsThenOk : Action nat error unit :=
  fun n =>
    match n with
    | O => (Ok tt, O)
    | S n' => (Err (StatusError StatusReasonConflict), n')
    end.

(** A closure that meets a conflict once and a server error after that. *)
Definition conflictThenFailure : Action nat error unit :=
  fun n =>
    match n with
    | O => (Err (StatusError StatusReasonInternalError), O)
    | S n' => (Err (StatusError StatusReasonConflict), n')
    end.

End scenario.

(** ** Runs of conflicted attempts *)

(** [attemptsConflicted fn n w w']: [n] attempts of [fn] in a row, the first
    started in [w], each ended in an error classified as a conflict, and the
    last one left the world [w']. *)
Inductive attemptsConflicted {W E : Type} `{apierrors.Classifier E}
    (fn : Action W E unit) : nat -> W -> W -> Prop :=
  | noAttempt w : attemptsConflicted fn 0 w w
  | oneMoreAttempt n w w1 w' :
    conflicted fn w w1 ->
    attemptsConflicted fn n w1 w' ->
    attemptsConflicted fn (S n) w w'.

(** The condition list has an entry of the given type. *)
Definition hasType (conditions : ConditionList) (conditionType : ConditionType) : bool :=
  existsb (fun c => String.eqb (Type_ c) conditionType) conditions.

(** ** Contention on the in-memory API server *)

Module contention.

Import fake.

(** Another writer touches the policy right before the status write of an
    [Update] attempt (its fourth call). *)
Definition updateRace : list (list Interference) :=
  [[]; []; []; [WritePolicyStatus "vlan100" scenario.degradedBefore]].

(** The same for [Reset], whose status write is its second call. *)
Definition resetRace : list (list Interference) :=
  [[]; [WritePolicyStatus "vlan100" scenario.degradedBefore]].

(** The other writer wins the race [n] times in a row. *)
Definition updateLoses (n : nat) : Cluster :=
  mkCluster [scenario.policy []] scenario.twoOfThree scenario.threeNodes None
    (List.concat (repeat updateRace n)).

Definition resetLoses (n : nat) : Cluster :=
  mkCluster [scenario.policy scenario.degradedBefore] scenario.twoOfThree
    scenario.threeNodes None
    (List.concat (repeat resetRace n)).


(** Nodes that are not ready: one without conditions, one whose [Ready]
    condition is [False], one whose [Ready] condition is [Unknown]. *)
Definition unreadyNodes : list corev1.Node :=
  [corev1.mkNode "node04" (corev1.mkNodeStatus []);
   corev1.mkNode "node05"
     (corev1.mkNodeStatus [corev1.mkNodeCondition corev1.NodeReady corev1.ConditionFalse]);
   corev1.mkNode "node06"
     (corev1.mkNodeStatus [corev1.mkNodeCondition corev1.NodeReady corev1.ConditionUnknown])].

End contention.

(** * Properties *)

(** ** Integers and formatting *)

Lemma goint_wrap_inRange (z : Z) : goint.inRange z -> goint.wrap z = z.
Proof.
  unfold goint.inRange, goint.MinInt, goint.MaxInt, goint.wrap; intros Hz.
  rewrite Z.mod_small; lia.
Qed.

Lemma goint_wrap_is_inRange (z : Z) : goint.inRange (goint.wrap z).
Proof.
  unfold goint.inRange, goint.MinInt, goint.MaxInt, goint.wrap.
  pose proof (Z.mod_pos_bound (z + 2 ^ 63) (2 ^ 64)); lia.
Qed.

(** With non-negative counts whose sum fits an [int], the count of finished
    enactments is the exact sum. *)
Lemma numberOfFinishedEnactments_exact (c : ConditionCount) :
  0 <= Available c -> 0 <= Failed c -> 0 <= NotMatching c ->
  Available c + Failed c + NotMatching c <= goint.MaxInt ->
  numberOfFinishedEnactments c = Available c + Failed c + NotMatching c.
Proof.
  intros Ha Hf Hn Hsum.
  unfold numberOfFinishedEnactments, goint.add.
  assert (Hmin : goint.MinInt <= 0) by (unfold goint.MinInt; lia).
  rewrite (goint_wrap_inRange (Available c + Failed c)) by (unfold goint.inRange; lia).
  apply goint_wrap_inRange; unfold goint.inRange; lia.
Qed.

Lemma Sprintf_progressing (finished ready : Z) :
  fmt.Sprintf "Policy is progressing %d/%d nodes finished"
    [fmt.IntArg finished; fmt.IntArg ready]
  = "Policy is progressing " ++ fmt.formatInt finished ++ "/"
      ++ fmt.formatInt ready ++ " nodes finished".
Proof. reflexivity. Qed.

Lemma Sprintf_failed (failed matching : Z) :
  fmt.Sprintf "%d/%d nodes failed to configure"
    [fmt.IntArg failed; fmt.IntArg matching]
  = fmt.formatInt failed ++ "/" ++ fmt.formatInt matching ++ " nodes failed to configure".
Proof. reflexivity. Qed.

Lemma Sprintf_success (n d : Z) :
  fmt.Sprintf "%d/%d nodes successfully configured" [fmt.IntArg n; fmt.IntArg d]
  = fmt.formatInt n ++ "/" ++ fmt.formatInt d ++ " nodes successfully configured".
Proof. reflexivity. Qed.

Example formatInt_samples :
  fmt.formatInt 0 = "0" /\ fmt.formatInt 3 = "3" /\
  fmt.formatInt 120 = "120" /\ fmt.formatInt (-7) = "-7".
Proof. repeat split. Qed.

(** ** The upsert *)

Section Upsert.

Variables (conditionType : ConditionType) (status : corev1.ConditionStatus)
            (reason : ConditionReason) (message : string).

Lemma Find_Set_same (l : ConditionList) :
    ConditionList_Find (ConditionList_Set l conditionType status reason message) conditionType
    = Some (mkCondition conditionType status reason message).
Proof.
    induction l as [|c l IH]; simpl.
    - now rewrite String.eqb_refl.
    - destruct (String.eqb (Type_ c) conditionType) eqn:Hc; simpl.
      + now rewrite String.eqb_refl.
      + now rewrite Hc.
Qed.

Lemma Find_Set_other (l : ConditionList) (other : ConditionType) :
    other <> conditionType ->
    ConditionList_Find (ConditionList_Set l conditionType status reason message) other
    = ConditionList_Find l other.
Proof.
    intros Hneq.
    assert (Hb : String.eqb conditionType other = false)
      by (apply String.eqb_neq; congruence).
    induction l as [|c l IH]; simpl.
    - now rewrite Hb.
    - destruct (String.eqb (Type_ c) conditionType) eqn:Hc; simpl.
      + apply String.eqb_eq in Hc. rewrite Hc, Hb. reflexivity.
      + destruct (String.eqb (Type_ c) other); [reflexivity | exact IH].
Qed.

(** The upsert keeps the list of types, or extends it by the new type at
    the end. *)
Lemma Set_types (l : ConditionList) :
    map Type_ (ConditionList_Set l conditionType status reason message)
    = if existsb (fun c => String.eqb (Type_ c) conditionType) l
      then map Type_ l
      else (map Type_ l ++ [conditionType])%list.
Proof.
    induction l as [|c l IH]; simpl; [reflexivity|].
    destruct (String.eqb (Type_ c) conditionType) eqn:Hc; simpl.
    - apply String.eqb_eq in Hc. now rewrite Hc.
    - rewrite IH. now destruct (existsb _ l).
Qed.

End Upsert.

(** ** The decision block *)

(** What a [setPolicy...] helper leaves in the list: the Degraded condition,
    the Available condition, and every other type as it was. *)
Lemma two_upserts (l : ConditionList)
    (sd sa : corev1.ConditionStatus) (rd ra : ConditionReason) (md ma : string) :
  let l' :=
    ConditionList_Set (ConditionList_Set l "Degraded" sd rd md) "Available" sa ra ma in
  ConditionList_Find l' "Degraded" = Some (mkCondition "Degraded" sd rd md) /\
  ConditionList_Find l' "Available" = Some (mkCondition "Available" sa ra ma) /\
  (forall other, other <> "Degraded" -> other <> "Available" ->
     ConditionList_Find l' other = ConditionList_Find l other).
Proof.
  cbv zeta. repeat split.
  - rewrite Find_Set_other by discriminate. apply Find_Set_same.
  - apply Find_Set_same.
  - intros other Hd Ha. now rewrite !Find_Set_other.
Qed.

Ltac branch_of_decision :=
  unfold updatePolicyConditions; cbv zeta;
  repeat match goal with
         | H : _ = true |- _ => rewrite H
         | H : _ = false |- _ => rewrite H
         end.

(** C1.  Progressing branch: whenever the number of finished enactments is
    below the number of ready nodes, the decision block leaves Degraded at
    Unknown / "ConfigurationProgressing" with an empty message and Available at
    Unknown / "ConfigurationProgressing" with the message
    "Policy is progressing <finished>/<readyNodes> nodes finished", the two
    counts printed in decimal.  This holds for every list of prior conditions
    and every count, in particular for every [readyNodes >= 0]. *)
Theorem updatePolicyConditions_progressing
    (conditions : ConditionList) (readyNodes : Z) (counts : ConditionCount) :
  numberOfFinishedEnactments counts < readyNodes ->
  let conditions' := updatePolicyConditions conditions readyNodes counts in
  ConditionList_Find conditions' "Degraded"
    = Some (mkCondition "Degraded" corev1.ConditionUnknown "ConfigurationProgressing" "") /\
  ConditionList_Find conditions' "Available"
    = Some (mkCondition "Available" corev1.ConditionUnknown "ConfigurationProgressing"
              ("Policy is progressing "
                 ++ fmt.formatInt (numberOfFinishedEnactments counts) ++ "/"
                 ++ fmt.formatInt readyNodes ++ " nodes finished")).
Proof.
  intros Hlt. apply Z.ltb_lt in Hlt.
  branch_of_decision.
  rewrite Sprintf_progressing.
  unfold setPolicyProgressing; cbv zeta.
  split; apply two_upserts.
Qed.

(** C1 at two finished enactments out of three ready nodes. *)
Lemma updatePolicyConditions_progressing_witness :
  numberOfFinishedEnactments (mkConditionCount 3 1 1 0) < 3 /\
  ConditionList_Find (updatePolicyConditions [] 3 (mkConditionCount 3 1 1 0)) "Available"
    = Some (mkCondition "Available" corev1.ConditionUnknown "ConfigurationProgressing"
              "Policy is progressing 2/3 nodes finished").
Proof.
  split; [reflexivity|].
  exact (proj2 (updatePolicyConditions_progressing [] 3 (mkConditionCount 3 1 1 0)
                  eq_refl)).
Defined.

(** C2.  NotMatching branch: when the finished enactments are not fewer than
    the ready nodes and no enactment matches, Degraded becomes
    False / "ConfigurationNoMatchingNode" and Available becomes
    True / "ConfigurationNoMatchingNode", both with the message
    "Policy does not match any node", whatever the available, failed and
    not-matching counts are. *)
Theorem updatePolicyConditions_notMatching
    (conditions : ConditionList) (readyNodes : Z) (counts : ConditionCount) :
  numberOfFinishedEnactments counts >= readyNodes ->
  Matching counts = 0 ->
  let conditions' := updatePolicyConditions conditions readyNodes counts in
  ConditionList_Find conditions' "Degraded"
    = Some (mkCondition "Degraded" corev1.ConditionFalse "ConfigurationNoMatchingNode"
              "Policy does not match any node") /\
  ConditionList_Find conditions' "Available"
    = Some (mkCondition "Available" corev1.ConditionTrue "ConfigurationNoMatchingNode"
              "Policy does not match any node").
Proof.
  intros Hge Hm.
  assert (Hlt : (numberOfFinishedEnactments counts <? readyNodes) = false)
    by (apply Z.ltb_ge; lia).
  apply Z.eqb_eq in Hm.
  branch_of_decision.
  unfold setPolicyNotMatching; cbv zeta.
  split; apply two_upserts.
Qed.

(** C2 with counts that are not all zero: failed enactments do not change the
    branch while nothing matches. *)
Lemma updatePolicyConditions_notMatching_witness :
  numberOfFinishedEnactments (mkConditionCount 0 1 2 3) >= 4 /\
  Matching (mkConditionCount 0 1 2 3) = 0 /\
  ConditionList_Find (updatePolicyConditions [] 4 (mkConditionCount 0 1 2 3)) "Available"
    = Some (mkCondition "Available" corev1.ConditionTrue "ConfigurationNoMatchingNode"
              "Policy does not match any node").
Proof.
  split; [discriminate|]. split; [reflexivity|].
  refine (proj2 (updatePolicyConditions_notMatching [] 4 (mkConditionCount 0 1 2 3) _ eq_refl)).
  discriminate.
Defined.

(** C3.  FailedToConfigure branch: when the finished enactments are not fewer
    than the ready nodes, some enactment matches and some enactment failed,
    Degraded becomes True / "FailedToConfigure" with the message
    "<failed>/<matching> nodes failed to configure" and Available becomes
    False / "FailedToConfigure" with an empty message. *)
Theorem updatePolicyConditions_failedToConfigure
    (conditions : ConditionList) (readyNodes : Z) (counts : ConditionCount) :
  numberOfFinishedEnactments counts >= readyNodes ->
  Matching counts > 0 ->
  Failed counts > 0 ->
  let conditions' := updatePolicyConditions conditions readyNodes counts in
  ConditionList_Find conditions' "Degraded"
    = Some (mkCondition "Degraded" corev1.ConditionTrue "FailedToConfigure"
              (fmt.formatInt (Failed counts) ++ "/" ++ fmt.formatInt (Matching counts)
                 ++ " nodes failed to configure")) /\
  ConditionList_Find conditions' "Available"
    = Some (mkCondition "Available" corev1.ConditionFalse "FailedToConfigure" "").
Proof.
  intros Hge Hm Hf.
  assert (Hlt : (numberOfFinishedEnactments counts <? readyNodes) = false)
    by (apply Z.ltb_ge; lia).
  assert (Hm0 : (Matching counts =? 0) = false) by (apply Z.eqb_neq; lia).
  assert (Hf0 : (Failed counts >? 0) = true) by (apply Z.gtb_lt; lia).
  branch_of_decision.
  rewrite Sprintf_failed.
  unfold setPolicyFailedToConfigure; cbv zeta.
  split; apply two_upserts.
Qed.

(** C3 on the scenario of the specification: three ready nodes and counts
    {matching 3, available 2, failed 1, notMatching 0}. *)
Lemma updatePolicyConditions_failedToConfigure_witness :
  numberOfFinishedEnactments (mkConditionCount 3 2 1 0) = 3 /\
  Matching (mkConditionCount 3 2 1 0) > 0 /\
  Failed (mkConditionCount 3 2 1 0) > 0 /\
  ConditionList_Find (updatePolicyConditions [] 3 (mkConditionCount 3 2 1 0)) "Degraded"
    = Some (mkCondition "Degraded" corev1.ConditionTrue "FailedToConfigure"
              "1/3 nodes failed to configure") /\
  ConditionList_Find (updatePolicyConditions [] 3 (mkConditionCount 3 2 1 0)) "Available"
    = Some (mkCondition "Available" corev1.ConditionFalse "FailedToConfigure" "").
Proof.
  split; [reflexivity|]. split; [reflexivity|]. split; [reflexivity|].
  refine (updatePolicyConditions_failedToConfigure [] 3 (mkConditionCount 3 2 1 0)
            _ eq_refl eq_refl).
  discriminate.
Defined.

(** C4.  Success branch: when the finished enactments are not fewer than the
    ready nodes, some enactment matches and none failed, Degraded becomes
    False / "SuccessfullyConfigured" with an empty message and Available
    becomes True / "SuccessfullyConfigured" with the message
    "<available>/<available> nodes successfully configured": numerator and
    denominator are both the available count, not the matching count. *)
Theorem updatePolicyConditions_success
    (conditions : ConditionList) (readyNodes : Z) (counts : ConditionCount) :
  numberOfFinishedEnactments counts >= readyNodes ->
  Matching counts > 0 ->
  Failed counts = 0 ->
  let conditions' := updatePolicyConditions conditions readyNodes counts in
  ConditionList_Find conditions' "Degraded"
    = Some (mkCondition "Degraded" corev1.ConditionFalse "SuccessfullyConfigured" "") /\
  ConditionList_Find conditions' "Available"
    = Some (mkCondition "Available" corev1.ConditionTrue "SuccessfullyConfigured"
              (fmt.formatInt (Available counts) ++ "/" ++ fmt.formatInt (Available counts)
                 ++ " nodes successfully configured")).
Proof.
  intros Hge Hm Hf.
  assert (Hlt : (numberOfFinishedEnactments counts <? readyNodes) = false)
    by (apply Z.ltb_ge; lia).
  assert (Hm0 : (Matching counts =? 0) = false) by (apply Z.eqb_neq; lia).
  assert (Hf0 : (Failed counts >? 0) = false) by (rewrite Hf; reflexivity).
  branch_of_decision.
  rewrite Sprintf_success.
  unfold setPolicySuccess; cbv zeta.
  split; apply two_upserts.
Qed.

(** C4 where the available and the matching counts differ: four of five
    matching nodes are configured, one enactment is not matching, and the
    message reads 4/4. *)
Lemma updatePolicyConditions_success_witness :
  numberOfFinishedEnactments (mkConditionCount 5 4 0 1) >= 5 /\
  Matching (mkConditionCount 5 4 0 1) > 0 /\
  Failed (mkConditionCount 5 4 0 1) = 0 /\
  ConditionList_Find (updatePolicyConditions [] 5 (mkConditionCount 5 4 0 1)) "Available"
    = Some (mkCondition "Available" corev1.ConditionTrue "SuccessfullyConfigured"
              "4/4 nodes successfully configured").
Proof.
  split; [discriminate|]. split; [reflexivity|]. split; [reflexivity|].
  refine (proj2 (updatePolicyConditions_success [] 5 (mkConditionCount 5 4 0 1)
                   _ eq_refl eq_refl)).
  discriminate.
Defined.

(** C10.  Whatever the inputs, the decision block amounts to exactly two
    upserts, one of type Degraded followed by one of type Available, and the
    two carry the same reason.  Their statuses are either both Unknown or one
    is True and the other False, so they are never both True.  Conditions of
    any other type are left as they were, and from the empty list the result
    consists of the Degraded and the Available condition only. *)
Theorem updatePolicyConditions_writes_two
    (conditions : ConditionList) (readyNodes : Z) (counts : ConditionCount) :
  exists (sd sa : corev1.ConditionStatus) (reason : ConditionReason) (md ma : string),
    updatePolicyConditions conditions readyNodes counts
      = ConditionList_Set
          (ConditionList_Set conditions
             NodeNetworkConfigurationPolicyConditionDegraded sd reason md)
          NodeNetworkConfigurationPolicyConditionAvailable sa reason ma /\
    ((sd = corev1.ConditionUnknown /\ sa = corev1.ConditionUnknown) \/
     (sd = corev1.ConditionTrue /\ sa = corev1.ConditionFalse) \/
     (sd = corev1.ConditionFalse /\ sa = corev1.ConditionTrue)) /\
    ~ (sd = corev1.ConditionTrue /\ sa = corev1.ConditionTrue) /\
    ConditionList_Find (updatePolicyConditions conditions readyNodes counts) "Degraded"
      = Some (mkCondition "Degraded" sd reason md) /\
    ConditionList_Find (updatePolicyConditions conditions readyNodes counts) "Available"
      = Some (mkCondition "Available" sa reason ma) /\
    (forall other, other <> "Degraded" -> other <> "Available" ->
       ConditionList_Find (updatePolicyConditions conditions readyNodes counts) other
       = ConditionList_Find conditions other) /\
    updatePolicyConditions [] readyNodes counts
      = [mkCondition "Degraded" sd reason md; mkCondition "Available" sa reason ma].
Proof.
  unfold updatePolicyConditions; cbv zeta.
  destruct (numberOfFinishedEnactments counts <? readyNodes);
    [| destruct (Matching counts =? 0); [| destruct (Failed counts >? 0)]];
    [ unfold setPolicyProgressing
    | unfold setPolicyNotMatching
    | unfold setPolicyFailedToConfigure
    | unfold setPolicySuccess ];
    cbv zeta;
    do 5 eexists;
    (split; [reflexivity|]);
    (split; [tauto|]);
    (split; [intros [Hd Ha]; discriminate|]);
    (split; [apply two_upserts|]);
    (split; [apply two_upserts|]);
    (split; [apply two_upserts | reflexivity]).
Qed.

(** ** The count of ready nodes *)

Lemma countNodeConditions_step (n : Z) (node : corev1.Node) :
  exists k : nat,
    k = List.length (filter isReadyTrue (corev1.Conditions (corev1.NodeStatus_ node))) /\
    (goint.inRange n -> n + Z.of_nat k <= goint.MaxInt ->
     countNodeConditions n node = n + Z.of_nat k) .
Proof.
  unfold countNodeConditions.
  generalize (corev1.Conditions (corev1.NodeStatus_ node)) as cs.
  intros cs; revert n.
  induction cs as [|c cs IH]; intros n; simpl.
  - exists 0%nat. split; [reflexivity|]. intros; lia.
  - destruct (isReadyTrue c) eqn:Hc; simpl.
    + destruct (IH (goint.add n 1)) as [k [Hk Hrun]].
      exists (S k). split; [now rewrite Hk|].
      intros Hn Hmax.
      assert (Hadd : goint.add n 1 = n + 1).
      { unfold goint.add. apply goint_wrap_inRange.
        unfold goint.inRange, goint.MinInt, goint.MaxInt in *. lia. }
      rewrite Hrun; rewrite Hadd.
      * lia.
      * unfold goint.inRange, goint.MinInt, goint.MaxInt in *. lia.
      * lia.
    + exact (IH n).
Qed.

(** The loop counts condition entries: its result is the total number of
    [(Ready, True)] entries over all nodes, as long as that number fits an
    [int]. *)
Lemma numberOfReadyNodes_counts_entries (nodes : list corev1.Node) :
  let entries :=
    flat_map (fun node => filter isReadyTrue (corev1.Conditions (corev1.NodeStatus_ node)))
      nodes in
  Z.of_nat (List.length entries) <= goint.MaxInt ->
  numberOfReadyNodes nodes = Z.of_nat (List.length entries).
Proof.
  cbv zeta. unfold numberOfReadyNodes.
  assert (Hgen : forall n,
    0 <= n ->
    n + Z.of_nat (List.length
          (flat_map (fun node =>
             filter isReadyTrue (corev1.Conditions (corev1.NodeStatus_ node))) nodes))
      <= goint.MaxInt ->
    fold_left countNodeConditions nodes n
    = n + Z.of_nat (List.length
          (flat_map (fun node =>
             filter isReadyTrue (corev1.Conditions (corev1.NodeStatus_ node))) nodes))).
  { induction nodes as [|node nodes IH]; intros n Hn Hmax; simpl in *.
    - lia.
    - rewrite length_app in *.
      destruct (countNodeConditions_step n node) as [k [Hk Hrun]].
      rewrite <- Hk in *.
      rewrite Hrun.
      + rewrite IH; lia.
      + unfold goint.inRange, goint.MinInt, goint.MaxInt in *. lia.
      + lia. }
  intros Hmax. rewrite Hgen; lia.
Qed.

Lemma filter_isReadyTrue_at_most_one (l : list corev1.NodeCondition) :
  (List.length (filter isReadyTrue l) <= 1)%nat ->
  List.length (filter isReadyTrue l) = if existsb isReadyTrue l then 1%nat else 0%nat.
Proof.
  induction l as [|c l IH]; simpl; intros H1; [reflexivity|].
  destruct (isReadyTrue c) eqn:Hc; simpl in *.
  - destruct (filter isReadyTrue l); simpl in *; [reflexivity | lia].
  - exact (IH H1).
Qed.

(** Where no node lists [(Ready, True)] more than once, the loop agrees with
    the count of ready nodes. *)
Lemma numberOfReadyNodes_agrees (nodes : list corev1.Node) :
  Forall (fun node =>
            (List.length (filter isReadyTrue (corev1.Conditions (corev1.NodeStatus_ node)))
             <= 1)%nat) nodes ->
  Z.of_nat (List.length nodes) <= goint.MaxInt ->
  numberOfReadyNodes nodes = readyNodeCount nodes.
Proof.
  intros Hone Hmax.
  assert (Hlen :
    List.length
      (flat_map (fun node => filter isReadyTrue (corev1.Conditions (corev1.NodeStatus_ node)))
         nodes)
    = List.length (filter nodeIsReady nodes)).
  { clear Hmax. induction Hone as [|node nodes H1 _ IH]; simpl; [reflexivity|].
    rewrite length_app, IH, (filter_isReadyTrue_at_most_one _ H1).
    unfold nodeIsReady.
    now destruct (existsb isReadyTrue (corev1.Conditions (corev1.NodeStatus_ node))). }
  unfold readyNodeCount. rewrite <- Hlen.
  apply numberOfReadyNodes_counts_entries.
  cbv zeta. rewrite Hlen.
  pose proof (filter_length_le nodeIsReady nodes). lia.
Qed.

(** C8.  On a single node whose status lists [(Ready, True)] twice the loop
    of [Update] yields 2, while there is one ready node. *)
Theorem numberOfReadyNodes_counts_twice :
  numberOfReadyNodes [nodeReadyTwice] = 2 /\
  readyNodeCount [nodeReadyTwice] = 1 /\
  nodeIsReady nodeReadyTwice = true.
Proof. repeat split. Qed.

(** ** The retry executor *)

Section Retry.

Context {W E : Type} `{apierrors.Classifier E}.

Lemma onConflict_unfold (steps : nat) (fn : Action W E unit) (last : option E) (w : W) :
  retry.onConflict (S steps) fn last w
  = match fn w with
    | (Ok _, w') => (Ok tt, w')
    | (Err err, w') =>
        if apierrors.IsConflict err
        then retry.onConflict steps fn (Some err) w'
        else (Err err, w')
    end.
Proof. reflexivity. Qed.

(** An error that is not a conflict ends the loop at once. *)
Lemma onConflict_stops (steps : nat) (fn : Action W E unit) (last : option E)
    (w w' : W) (err : E) :
  fn w = (Err err, w') ->
  apierrors.IsConflict err = false ->
  retry.onConflict (S steps) fn last w = (Err err, w').
Proof.
  intros Hfn Hnc. rewrite onConflict_unfold, Hfn, Hnc. reflexivity.
Qed.

(** A loop that returns [nil] either never ran or ran a successful attempt
    after a chain of conflicted ones. *)
Lemma onConflict_ok_inv (steps : nat) (fn : Action W E unit) :
  forall (last : option E) (w w' : W) (u : unit),
    retry.onConflict steps fn last w = (Ok u, w') ->
    (steps = 0%nat /\ last = None /\ w' = w) \/
    exists wk, clos_refl_trans_1n W (conflicted fn) w wk /\ fn wk = (Ok tt, w').
Proof.
  induction steps as [|steps IH]; intros last w w' u Hrun.
  - simpl in Hrun. destruct last; inversion Hrun; subst. left. auto.
  - right. rewrite onConflict_unfold in Hrun.
    destruct (fn w) as [[[]|err] w1] eqn:Hfn.
    + inversion Hrun; subst. exists w. split; [constructor | assumption].
    + destruct (apierrors.IsConflict err) eqn:Hc; [|discriminate].
      destruct (IH _ _ _ _ Hrun) as [[_ [Hlast _]] | [wk [Hchain Hok]]];
        [discriminate|].
      exists wk. split; [|assumption].
      econstructor; [|exact Hchain].
      exists err. auto.
Qed.

End Retry.

Section RetryLog.

Context {W E : Type} `{apierrors.Classifier E}.

Lemma logged_eq (fn : Action W E unit) (w : W) (log : list (Result E unit)) :
  logged fn (w, log) = (fst (fn w), (snd (fn w), (log ++ [fst (fn w)])%list)).
Proof. unfold logged; simpl. now destruct (fn w). Qed.

(** The recorder does not change what the loop does to the world. *)
Lemma onConflict_logged (steps : nat) (fn : Action W E unit) :
  forall (last : option E) (w : W) (log : list (Result E unit)),
    fst (retry.onConflict steps (logged fn) last (w, log))
      = fst (retry.onConflict steps fn last w) /\
    fst (snd (retry.onConflict steps (logged fn) last (w, log)))
      = snd (retry.onConflict steps fn last w).
Proof.
  induction steps as [|steps IH]; intros last w log.
  - simpl. destruct last; auto.
  - rewrite !onConflict_unfold, logged_eq.
    destruct (fn w) as [[[]|err] w1]; simpl; auto.
    destruct (apierrors.IsConflict err); simpl; auto.
Qed.

(** The attempts of a loop, in order: all but the last ended in a conflict,
    the last one's result is the loop's result, there are at most [steps] of
    them, and a conflict is the result only when all steps are used. *)
Lemma onConflict_log (steps : nat) (fn : Action W E unit) :
  forall (last : option E) (w : W) (log0 : list (Result E unit))
         (r : Result E unit) (w' : W) (log : list (Result E unit)),
    retry.onConflict steps (logged fn) last (w, log0) = (r, (w', log)) ->
    (steps = 0%nat /\ log = log0) \/
    exists earlier,
      log = (log0 ++ earlier ++ [r])%list /\
      forallb isConflictResult earlier = true /\
      (List.length (earlier ++ [r]) <= steps)%nat /\
      (isConflictResult r = true -> List.length (earlier ++ [r]) = steps).
Proof.
  induction steps as [|steps IH]; intros last w log0 r w' log Hrun.
  - left. simpl in Hrun. destruct last; inversion Hrun; auto.
  - right. rewrite onConflict_unfold, logged_eq in Hrun.
    destruct (fn w) as [[[]|err] w1] eqn:Hfn; simpl in Hrun.
    + inversion Hrun; subst. exists []. simpl. repeat split; auto; try lia; discriminate.
    + destruct (apierrors.IsConflict err) eqn:Hc.
      * destruct (IH _ _ _ _ _ _ Hrun) as [[Hz Hlog] | [earlier [Hlog [Hall [Hlen Hfull]]]]].
        -- subst steps. simpl in Hrun. inversion Hrun; subst.
           exists []. simpl. repeat split; auto.
        -- exists (Err err :: earlier). simpl. rewrite Hall, Hc. simpl.
           repeat split.
           ++ rewrite Hlog, <- app_assoc. reflexivity.
           ++ lia.
           ++ intros Hr. now rewrite (Hfull Hr).
      * inversion Hrun; subst. exists []. simpl. repeat split; auto; try lia.
        rewrite Hc. discriminate.
Qed.

(** The executor around any closure [fn], observed through the record of
    its attempts: with at least one step configured, the attempts made are at
    most [Steps]; every attempt that was followed by another one ended in an
    error classified as a conflict; the result returned is the result of the
    last attempt, so an error that is not a conflict is returned at once; and a
    conflict is returned only after all the steps are used, in which case it is
    the last conflict met. *)
Theorem RetryOnConflict_attempts (backoff : wait.Backoff) (fn : Action W E unit)
    (w w' : W) (r : Result E unit) (log : list (Result E unit)) :
  (0 < wait.Steps backoff)%nat ->
  retry.RetryOnConflict backoff (logged fn) (w, []) = (r, (w', log)) ->
  retry.RetryOnConflict backoff fn w = (r, w') /\
  wait.Steps retry.DefaultRetry = 5%nat /\
  exists earlier,
    log = (earlier ++ [r])%list /\
    forallb isConflictResult earlier = true /\
    (List.length log <= wait.Steps backoff)%nat /\
    (isConflictResult r = true -> List.length log = wait.Steps backoff).
Proof.
  unfold retry.RetryOnConflict. intros Hpos Hrun.
  split; [|split; [reflexivity|]].
  - pose proof (onConflict_logged (wait.Steps backoff) fn None w []) as [H1 H2].
    rewrite Hrun in H1, H2. simpl in H1, H2.
    destruct (retry.onConflict (wait.Steps backoff) fn None w); simpl in *; congruence.
  - destruct (onConflict_log _ _ _ _ _ _ _ _ Hrun) as [[Hz _] | [earlier [Hlog Hrest]]];
      [lia|].
    exists earlier. simpl in Hlog. rewrite Hlog. exact (conj eq_refl Hrest).
Qed.

End RetryLog.

(** The executor on a closure that meets two conflicts and then succeeds, and
    on one that keeps meeting conflicts: three attempts in the first run, five
    in the second, which returns the conflict. *)
Lemma RetryOnConflict_attempts_witness :
  ((0 < wait.Steps retry.DefaultRetry)%nat /\
   retry.RetryOnConflict retry.DefaultRetry (logged scenario.conflictsThenOk) (2%nat, [])
   = (Ok tt,
      (0%nat,
       [Err (fake.StatusError fake.StatusReasonConflict);
        Err (fake.StatusError fake.StatusReasonConflict);
        Ok tt])) /\
   retry.RetryOnConflict retry.DefaultRetry scenario.conflictsThenOk 2%nat = (Ok tt, 0%nat)) /\
  ((0 < wait.Steps retry.DefaultRetry)%nat /\
   retry.RetryOnConflict retry.DefaultRetry (logged scenario.conflictsThenOk) (9%nat, [])
   = (Err (fake.StatusError fake.StatusReasonConflict),
      (4%nat, repeat (Err (fake.StatusError fake.StatusReasonConflict)) 5)) /\
   retry.RetryOnConflict retry.DefaultRetry scenario.conflictsThenOk 9%nat
   = (Err (fake.StatusError fake.StatusReasonConflict), 4%nat)).
Proof.
  split.
  - assert (Hpos : (0 < wait.Steps retry.DefaultRetry)%nat) by (simpl; lia).
    split; [exact Hpos|]. split; [reflexivity|].
    exact (proj1 (RetryOnConflict_attempts retry.DefaultRetry scenario.conflictsThenOk
                    2%nat 0%nat (Ok tt) _ Hpos eq_refl)).
  - assert (Hpos : (0 < wait.Steps retry.DefaultRetry)%nat) by (simpl; lia).
    split; [exact Hpos|]. split; [reflexivity|].
    exact (proj1 (RetryOnConflict_attempts retry.DefaultRetry scenario.conflictsThenOk
                    9%nat 4%nat (Err (fake.StatusError fake.StatusReasonConflict)) _
                    Hpos eq_refl)).
Defined.

(** A conflict followed by a server error: two attempts, and the server error
    is what the caller gets. *)
Example RetryOnConflict_stops_on_other_error :
  retry.RetryOnConflict retry.DefaultRetry (logged scenario.conflictThenFailure) (1%nat, [])
  = (Err (fake.StatusError fake.StatusReasonInternalError),
     (0%nat,
      [Err (fake.StatusError fake.StatusReasonConflict);
       Err (fake.StatusError fake.StatusReasonInternalError)])).
Proof. reflexivity. Qed.

(** ** The delays of the default backoff *)




(** ** The retry discipline of [Update] and [Reset] *)




(** ** The attempts of [Update] and [Reset] *)

Section Attempts.

Context {W E Enactment : Type}.
Context `{errors.Wrapper E} `{apierrors.Classifier E}.

Variable Count : list Enactment -> ConditionCount.
Variable EnactmentPolicyLabel : string.
Variable cli : client.Client W E Enactment.
Variable policyKey : types.NamespacedName.

Ltac run_call call :=
  let r := fresh "r" in
  let Hcall := fresh "Hcall" in
  destruct call as [[r|r] ?] eqn:Hcall; simpl in *; try discriminate.

(** A successful attempt of [Update] made its three reads and wrote the
    decision computed from them. *)
Lemma updateClosure_ok_inv (w w' : W) (u : unit) :
  updateClosure Count EnactmentPolicyLabel cli policyKey w = (Ok u, w') ->
  exists policy enactments nodes w3,
    updateReads EnactmentPolicyLabel cli policyKey w policy enactments nodes w3 /\
    client.StatusUpdate cli (applyDecision Count policy enactments nodes) w3 = (Ok tt, w').
Proof.
  unfold updateClosure, bind, wrapping, updateReads. intros Hrun.
  run_call (client.Get cli policyKey w).
  run_call (client.ListEnactments cli [(EnactmentPolicyLabel, Name r)] w0).
  run_call (client.ListNodes cli w1).
  destruct u.
  exists r, r0, r1, w2. split; [|assumption].
  exists w0, w1. auto.
Qed.

(** A successful attempt of [Reset] read the policy and wrote it back with an
    empty list of conditions. *)
Lemma resetClosure_ok_inv (w w' : W) (u : unit) :
  resetClosure cli policyKey w = (Ok u, w') ->
  exists policy w1,
    client.Get cli policyKey w = (Ok policy, w1) /\
    client.StatusUpdate cli (withConditions policy []) w1 = (Ok tt, w').
Proof.
  unfold resetClosure, bind, wrapping. intros Hrun.
  run_call (client.Get cli policyKey w).
  destruct u. exists r, w0. auto.
Qed.

(** An attempt of [Update] one of whose reads fails returns the wrapped error
    in the world the failed read left. *)
Lemma updateClosure_read_failure (w w' : W) (err : E) (context : string) :
  ReadFailure EnactmentPolicyLabel cli policyKey w err context w' ->
  updateClosure Count EnactmentPolicyLabel cli policyKey w
  = (Err (errors.Wrap err context), w').
Proof.
  unfold updateClosure, bind, wrapping.
  intros [e w1 Hget | policy w1 e w2 Hget Hlist | policy w1 es w2 e w3 Hget Hlist Hnodes].
  - now rewrite Hget.
  - now rewrite Hget, Hlist.
  - now rewrite Hget, Hlist, Hnodes.
Qed.

Lemma ReadFailure_withStatusUpdate (w w' : W) (err : E) (context : string)
    (update : NodeNetworkConfigurationPolicy -> Action W E unit) :
  ReadFailure EnactmentPolicyLabel cli policyKey w err context w' ->
  ReadFailure EnactmentPolicyLabel (withStatusUpdate cli update) policyKey w err context w'.
Proof.
  intros [e w1 Hget | policy w1 e w2 Hget Hlist | policy w1 es w2 e w3 Hget Hlist Hnodes].
  - now apply PolicyReadFailed.
  - now apply EnactmentsReadFailed with policy w1.
  - now apply NodesReadFailed with policy w1 es w2.
Qed.

(** A run of [Update] that returns [nil]: conflicted attempts lead to a world
    [wk] from which an attempt makes its reads and has its write accepted. *)
Lemma Update_ok_inv (w w' : W) :
  Update Count EnactmentPolicyLabel cli policyKey w = (Ok tt, w') ->
  exists wk policy enactments nodes w3,
    clos_refl_trans_1n W
      (conflicted (updateClosure Count EnactmentPolicyLabel cli policyKey)) w wk /\
    updateReads EnactmentPolicyLabel cli policyKey wk policy enactments nodes w3 /\
    client.StatusUpdate cli (applyDecision Count policy enactments nodes) w3 = (Ok tt, w').
Proof.
  intros Hrun.
  destruct (onConflict_ok_inv _ _ _ _ _ _ Hrun) as [[Hz _] | [wk [Hchain Hok]]];
    [discriminate|].
  destruct (updateClosure_ok_inv _ _ _ Hok)
    as [policy [enactments [nodes [w3 [Hreads Hwrite]]]]].
  exists wk, policy, enactments, nodes, w3. auto.
Qed.

(** The same for [Reset]. *)
Lemma Reset_ok_inv (w w' : W) :
  Reset cli policyKey w = (Ok tt, w') ->
  exists wk policy w1,
    clos_refl_trans_1n W (conflicted (resetClosure cli policyKey)) w wk /\
    client.Get cli policyKey wk = (Ok policy, w1) /\
    client.StatusUpdate cli (withConditions policy []) w1 = (Ok tt, w').
Proof.
  intros Hrun.
  destruct (onConflict_ok_inv _ _ _ _ _ _ Hrun) as [[Hz _] | [wk [Hchain Hok]]];
    [discriminate|].
  destruct (resetClosure_ok_inv _ _ _ Hok) as [policy [w1 [Hget Hwrite]]].
  exists wk, policy, w1. auto.
Qed.

End Attempts.

(** C7.  When the read of the policy, of the enactments or of the nodes
    fails in an attempt of [Update], the attempt returns the error wrapped with
    "getting policy failed", "getting enactments failed" or "getting nodes
    failed" respectively, in the world the failed read left.  The wrapped error
    is not a conflict for the classifier, so the retry loop ends with it at this
    attempt, whichever attempt it is, and [Update] returns it.  No status write
    is attempted: the outcome is the same whatever the client's status write
    would do. *)
Theorem Update_read_failure {W E Enactment : Type}
    `{errors.Wrapper E} `{apierrors.Classifier E} {Outer : apierrors.OutermostOnly E}
    (Count : list Enactment -> ConditionCount) (EnactmentPolicyLabel : string)
    (cli : client.Client W E Enactment) (policyKey : types.NamespacedName)
    (w w' : W) (err : E) (context : string) :
  ReadFailure EnactmentPolicyLabel cli policyKey w err context w' ->
  In context ["getting policy failed"; "getting enactments failed"; "getting nodes failed"] /\
  (forall update,
     updateClosure Count EnactmentPolicyLabel (withStatusUpdate cli update) policyKey w
     = (Err (errors.Wrap err context), w')) /\
  updateClosure Count EnactmentPolicyLabel cli policyKey w
    = (Err (errors.Wrap err context), w') /\
  (forall steps last,
     retry.onConflict (S steps) (updateClosure Count EnactmentPolicyLabel cli policyKey)
       last w
     = (Err (errors.Wrap err context), w')) /\
  Update Count EnactmentPolicyLabel cli policyKey w = (Err (errors.Wrap err context), w') /\
  (forall update,
     Update Count EnactmentPolicyLabel (withStatusUpdate cli update) policyKey w
     = (Err (errors.Wrap err context), w')).
Proof.
  intros Hfail.
  assert (Hattempt : forall c : client.Client W E Enactment,
            ReadFailure EnactmentPolicyLabel c policyKey w err context w' ->
            updateClosure Count EnactmentPolicyLabel c policyKey w
            = (Err (errors.Wrap err context), w'))
    by (intros c Hc; now apply updateClosure_read_failure).
  assert (Hloop : forall c : client.Client W E Enactment,
            ReadFailure EnactmentPolicyLabel c policyKey w err context w' ->
            forall steps last,
              retry.onConflict (S steps) (updateClosure Count EnactmentPolicyLabel c policyKey)
                last w
              = (Err (errors.Wrap err context), w'))
    by (intros c Hc steps last; apply onConflict_stops;
        [now apply Hattempt | apply apierrors.IsConflict_Wrap]).
  split; [destruct Hfail; simpl; auto|].
  split; [intros update; apply Hattempt; now apply ReadFailure_withStatusUpdate|].
  split; [exact (Hattempt cli Hfail)|].
  split; [exact (Hloop cli Hfail)|].
  split; [exact (Hloop cli Hfail 4%nat None)|].
  intros update.
  exact (Hloop _ (ReadFailure_withStatusUpdate _ _ _ _ _ _ _ update Hfail) 4%nat None).
Qed.

(** C7 on the in-memory server: the policy is missing; the server fails the
    listing of the enactments; the server fails the listing of the nodes; the
    server answers the [Get] with a conflict-shaped error.  Each time [Update]
    returns the wrapped error at once and the stored policies are what they
    were. *)
Lemma Update_read_failure_witness :
  (Update fake.Count fake.EnactmentPolicyLabel fake.cli scenario.policyKey
     scenario.policyMissing
   = (Err (fake.withMessage (fake.StatusError fake.StatusReasonNotFound)
             "getting policy failed"),
      scenario.policyMissing)) /\
  (Update fake.Count fake.EnactmentPolicyLabel fake.cli scenario.policyKey
     (scenario.outageAt 1)
   = (Err (fake.withMessage (fake.StatusError fake.StatusReasonInternalError)
             "getting enactments failed"),
      scenario.quiet scenario.degradedBefore)) /\
  (Update fake.Count fake.EnactmentPolicyLabel fake.cli scenario.policyKey
     (scenario.outageAt 2)
   = (Err (fake.withMessage (fake.StatusError fake.StatusReasonInternalError)
             "getting nodes failed"),
      scenario.quiet scenario.degradedBefore)) /\
  (Update fake.Count fake.EnactmentPolicyLabel fake.cli scenario.policyKey
     scenario.conflictOnFirstRead
   = (Err (fake.withMessage (fake.StatusError fake.StatusReasonConflict)
             "getting policy failed"),
      fake.mkCluster [scenario.policy []] scenario.threeOfThree scenario.threeNodes
        None [])) /\
  fake.policies (scenario.quiet scenario.degradedBefore)
  = fake.policies (scenario.outageAt 1).
Proof.
  split; [|split; [|split; [|split; [|reflexivity]]]].
  - refine (proj1 (proj2 (proj2 (proj2 (proj2
      (Update_read_failure fake.Count fake.EnactmentPolicyLabel fake.cli scenario.policyKey
         scenario.policyMissing scenario.policyMissing
         (fake.StatusError fake.StatusReasonNotFound) "getting policy failed" _)))))).
    apply PolicyReadFailed. reflexivity.
  - refine (proj1 (proj2 (proj2 (proj2 (proj2
      (Update_read_failure fake.Count fake.EnactmentPolicyLabel fake.cli scenario.policyKey
         (scenario.outageAt 1) (scenario.quiet scenario.degradedBefore)
         (fake.StatusError fake.StatusReasonInternalError) "getting enactments failed"
         _)))))).
    eapply EnactmentsReadFailed; reflexivity.
  - refine (proj1 (proj2 (proj2 (proj2 (proj2
      (Update_read_failure fake.Count fake.EnactmentPolicyLabel fake.cli scenario.policyKey
         (scenario.outageAt 2) (scenario.quiet scenario.degradedBefore)
         (fake.StatusError fake.StatusReasonInternalError) "getting nodes failed"
         _)))))).
    eapply NodesReadFailed; reflexivity.
  - refine (proj1 (proj2 (proj2 (proj2 (proj2
      (Update_read_failure fake.Count fake.EnactmentPolicyLabel fake.cli scenario.policyKey
         scenario.conflictOnFirstRead
         (fake.mkCluster [scenario.policy []] scenario.threeOfThree scenario.threeNodes
            None [])
         (fake.StatusError fake.StatusReasonConflict) "getting policy failed" _)))))).
    apply PolicyReadFailed. reflexivity.
Defined.

(** C5.  A run of [Update] that returns [nil] ends with an attempt that
    started in some world [wk], reached from the initial world through
    attempts that each ended in a conflict; that attempt read the policy, the
    enactments and the nodes from [wk] on, and the status write that was
    accepted carried the decision computed from exactly these reads.  The
    same holds for [Reset] with its single read.  So the whole closure is run
    again after a conflict, and what an earlier attempt computed is not what
    is written. *)
Theorem retry_decides_afresh {W E Enactment : Type}
    `{errors.Wrapper E} `{apierrors.Classifier E}
    (Count : list Enactment -> ConditionCount) (EnactmentPolicyLabel : string)
    (cli : client.Client W E Enactment) (policyKey : types.NamespacedName)
    (w w' : W) :
  (Update Count EnactmentPolicyLabel cli policyKey w = (Ok tt, w') ->
   exists wk policy enactments nodes w3,
     clos_refl_trans_1n W
       (conflicted (updateClosure Count EnactmentPolicyLabel cli policyKey)) w wk /\
     updateReads EnactmentPolicyLabel cli policyKey wk policy enactments nodes w3 /\
     client.StatusUpdate cli (applyDecision Count policy enactments nodes) w3 = (Ok tt, w')) /\
  (Reset cli policyKey w = (Ok tt, w') ->
   exists wk policy w1,
     clos_refl_trans_1n W (conflicted (resetClosure cli policyKey)) w wk /\
     client.Get cli policyKey wk = (Ok policy, w1) /\
     client.StatusUpdate cli (withConditions policy []) w1 = (Ok tt, w')).
Proof.
  split; intros Hrun.
  - now apply Update_ok_inv.
  - now apply Reset_ok_inv.
Qed.

(** The conflict simulation of the specification.  The first attempt reads
    two finished enactments for three ready nodes; before it writes, the third
    enactment finishes and another writer touches the policy, so the write is
    rejected.  The second attempt reads three finished enactments and its
    write is accepted: the stored conditions are the ones of the second
    reading. *)
Example conflict_simulation :
  updateClosure fake.Count fake.EnactmentPolicyLabel fake.cli scenario.policyKey
    scenario.conflictOnFirstWrite
  = (Err (fake.StatusError fake.StatusReasonConflict),
     fake.mkCluster
       [mkPolicy "vlan100" 8 (mkPolicyStatus scenario.degradedBefore)]
       scenario.threeOfThree scenario.threeNodes None []) /\
  Update fake.Count fake.EnactmentPolicyLabel fake.cli scenario.policyKey
    scenario.conflictOnFirstWrite
  = (Ok tt,
     fake.mkCluster
       [mkPolicy "vlan100" 9
          (mkPolicyStatus
             [mkCondition "Degraded" corev1.ConditionFalse "SuccessfullyConfigured" "";
              mkCondition "Available" corev1.ConditionTrue "SuccessfullyConfigured"
                "3/3 nodes successfully configured"])]
       scenario.threeOfThree scenario.threeNodes None []).
Proof. split; reflexivity. Qed.

(** C5 on the conflict simulation, for [Update] and for [Reset]. *)
Lemma retry_decides_afresh_witness :
  (exists wk policy enactments nodes w3,
     clos_refl_trans_1n fake.Cluster
       (conflicted (updateClosure fake.Count fake.EnactmentPolicyLabel fake.cli
                      scenario.policyKey))
       scenario.conflictOnFirstWrite wk /\
     updateReads fake.EnactmentPolicyLabel fake.cli scenario.policyKey wk
       policy enactments nodes w3 /\
     client.StatusUpdate fake.cli (applyDecision fake.Count policy enactments nodes) w3
     = (Ok tt,
        snd (Update fake.Count fake.EnactmentPolicyLabel fake.cli scenario.policyKey
               scenario.conflictOnFirstWrite))) /\
  (exists wk policy w1,
     clos_refl_trans_1n fake.Cluster
       (conflicted (resetClosure fake.cli scenario.policyKey))
       scenario.conflictOnFirstReset wk /\
     client.Get fake.cli scenario.policyKey wk = (Ok policy, w1) /\
     client.StatusUpdate fake.cli (withConditions policy []) w1
     = (Ok tt, snd (Reset fake.cli scenario.policyKey scenario.conflictOnFirstReset))).
Proof.
  split.
  - exact (proj1 (retry_decides_afresh fake.Count fake.EnactmentPolicyLabel fake.cli
                    scenario.policyKey scenario.conflictOnFirstWrite _) eq_refl).
  - exact (proj2 (retry_decides_afresh fake.Count fake.EnactmentPolicyLabel fake.cli
                    scenario.policyKey scenario.conflictOnFirstReset _) eq_refl).
Defined.

(** C9.  A run of [Reset] that returns [nil] ends with an attempt that read
    the policy and had a status write accepted; the policy written is the
    policy read with an empty condition list, whatever conditions the policy
    read carried. *)
Theorem Reset_persists_empty {W E Enactment : Type}
    `{errors.Wrapper E} `{apierrors.Classifier E}
    (cli : client.Client W E Enactment) (policyKey : types.NamespacedName)
    (w w' : W) :
  Reset cli policyKey w = (Ok tt, w') ->
  exists wk policy w1 written,
    client.Get cli policyKey wk = (Ok policy, w1) /\
    client.StatusUpdate cli written w1 = (Ok tt, w') /\
    Conditions (PolicyStatus written) = [] /\
    Name written = Name policy /\
    ResourceVersion written = ResourceVersion policy.
Proof.
  intros Hrun.
  destruct (Reset_ok_inv _ _ _ _ Hrun) as [wk [policy [w1 [_ [Hget Hwrite]]]]].
  exists wk, policy, w1, (withConditions policy []). auto.
Qed.

(** C9 on the in-memory server, from a stored policy with two conditions and
    from one with none: the stored list is empty afterwards. *)
Lemma Reset_persists_empty_witness :
  (Reset fake.cli scenario.policyKey (scenario.quiet scenario.degradedBefore)
   = (Ok tt,
      fake.mkCluster [mkPolicy "vlan100" 8 (mkPolicyStatus [])]
        scenario.twoOfThree scenario.threeNodes None []) /\
   exists wk policy w1 written,
     client.Get fake.cli scenario.policyKey wk = (Ok policy, w1) /\
     client.StatusUpdate fake.cli written w1
     = (Ok tt,
        fake.mkCluster [mkPolicy "vlan100" 8 (mkPolicyStatus [])]
          scenario.twoOfThree scenario.threeNodes None []) /\
     Conditions (PolicyStatus written) = [] /\
     Name written = Name policy /\
     ResourceVersion written = ResourceVersion policy) /\
  (Reset fake.cli scenario.policyKey (scenario.quiet [])
   = (Ok tt,
      fake.mkCluster [mkPolicy "vlan100" 8 (mkPolicyStatus [])]
        scenario.twoOfThree scenario.threeNodes None [])).
Proof.
  split; [split|]; [reflexivity | | reflexivity].
  exact (Reset_persists_empty fake.cli scenario.policyKey
           (scenario.quiet scenario.degradedBefore) _ eq_refl).
Defined.

(** ** [Reset] against the in-memory server *)

Lemma lookup_name (name : string) (stored : list NodeNetworkConfigurationPolicy)
    (policy : NodeNetworkConfigurationPolicy) :
  fake.lookup name stored = Some policy -> Name policy = name.
Proof.
  unfold fake.lookup. intros Hfind.
  apply find_some in Hfind. now apply String.eqb_eq.
Qed.

Lemma lookup_store (name : string) (conditions : ConditionList)
    (stored : list NodeNetworkConfigurationPolicy) (policy : NodeNetworkConfigurationPolicy) :
  fake.lookup name stored = Some policy ->
  fake.lookup name (fake.store name conditions stored) = Some (fake.bump policy conditions).
Proof.
  unfold fake.lookup, fake.store.
  induction stored as [|p stored IH]; simpl; [discriminate|].
  destruct (String.eqb (Name p) name) eqn:Hp; simpl.
  - rewrite Hp. congruence.
  - rewrite Hp. exact IH.
Qed.

Lemma serve_ok_inv {A : Type} (answer : fake.Cluster -> Result fake.error A * fake.Cluster)
    (c c' : fake.Cluster) (a : A) :
  fake.serve answer c = (Ok a, c') -> answer (fake.others c) = (Ok a, c').
Proof.
  unfold fake.serve. cbv zeta.
  destruct (fake.fault (fake.others c)); [discriminate | auto].
Qed.

(** Whatever the cluster holds and whatever the other writers do, when
    [Reset] returns [nil] the policy stored under the key has no conditions. *)
Lemma Reset_on_server_stores_empty (policyKey : types.NamespacedName)
    (c c' : fake.Cluster) :
  Reset fake.cli policyKey c = (Ok tt, c') ->
  exists stored,
    fake.lookup (types.Name policyKey) (fake.policies c') = Some stored /\
    Conditions (PolicyStatus stored) = [].
Proof.
  intros Hrun.
  destruct (Reset_ok_inv _ _ _ _ Hrun) as [wk [policy [w1 [_ [Hget Hwrite]]]]].
  remember (withConditions policy []) as written eqn:Hwritten.
  assert (Hempty : Conditions (PolicyStatus written) = []) by now subst written.
  assert (Hname : Name written = Name policy) by now subst written.
  clear Hwritten. simpl in Hget, Hwrite.
  apply serve_ok_inv in Hget. apply serve_ok_inv in Hwrite.
  destruct (fake.lookup (types.Name policyKey) (fake.policies (fake.others wk)))
    as [found|] eqn:Hfound; [|discriminate].
  inversion Hget; subst found w1; clear Hget.
  apply lookup_name in Hfound.
  unfold fake.statusUpdate in Hwrite.
  destruct (fake.lookup (Name written) (fake.policies (fake.others (fake.others wk))))
    as [old|] eqn:Hold; [|discriminate].
  destruct (N.eqb (ResourceVersion old) (ResourceVersion written)); [|discriminate].
  inversion Hwrite; subst c'; clear Hwrite. simpl.
  rewrite <- Hfound, <- Hname.
  exists (fake.bump old (Conditions (PolicyStatus written))).
  split; [now apply lookup_store | exact Hempty].
Qed.

(** * Further properties of the package *)

(** ** The decision block as a pair of upserts *)

(** The two upserts a decision makes do not depend on the list they are
    applied to. *)
Lemma updatePolicyConditions_shape (readyNodes : Z) (counts : ConditionCount) :
  exists (sd sa : corev1.ConditionStatus) (reason : ConditionReason) (md ma : string),
    forall conditions,
      updatePolicyConditions conditions readyNodes counts
      = ConditionList_Set (ConditionList_Set conditions "Degraded" sd reason md)
          "Available" sa reason ma.
Proof.
  unfold updatePolicyConditions; cbv zeta.
  destruct (numberOfFinishedEnactments counts <? readyNodes);
    [| destruct (Matching counts =? 0); [| destruct (Failed counts >? 0)]];
    do 5 eexists; intros conditions; reflexivity.
Qed.

Lemma Set_Set_same (l : ConditionList) (t : ConditionType)
    (s1 s2 : corev1.ConditionStatus) (r1 r2 : ConditionReason) (m1 m2 : string) :
  ConditionList_Set (ConditionList_Set l t s1 r1 m1) t s2 r2 m2
  = ConditionList_Set l t s2 r2 m2.
Proof.
  induction l as [|c l IH]; simpl.
  - now rewrite String.eqb_refl.
  - destruct (String.eqb (Type_ c) t) eqn:Hc; simpl.
    + now rewrite String.eqb_refl.
    + now rewrite Hc, IH.
Qed.

Lemma Set_Set_swap (l : ConditionList) (t t' : ConditionType)
    (s1 s2 s3 : corev1.ConditionStatus) (r1 r2 r3 : ConditionReason) (m1 m2 m3 : string) :
  t <> t' ->
  ConditionList_Set (ConditionList_Set (ConditionList_Set l t s1 r1 m1) t' s2 r2 m2) t s3 r3 m3
  = ConditionList_Set (ConditionList_Set l t s3 r3 m3) t' s2 r2 m2.
Proof.
  intros Hneq.
  assert (Htt' : String.eqb t t' = false) by now apply String.eqb_neq.
  assert (Ht't : String.eqb t' t = false) by (apply String.eqb_neq; congruence).
  induction l as [|c l IH]; simpl.
  - rewrite Htt'. simpl. now rewrite String.eqb_refl.
  - destruct (String.eqb (Type_ c) t) eqn:Hc; simpl.
    + rewrite Htt'. simpl. now rewrite String.eqb_refl.
    + destruct (String.eqb (Type_ c) t') eqn:Hc'; simpl.
      * rewrite Ht't. now rewrite Set_Set_same.
      * rewrite Hc. now rewrite IH.
Qed.

(** X1.  A decision overrides whatever an earlier decision wrote: deciding
    for [(readyNodes1, counts1)] and then for [(readyNodes2, counts2)] on the
    resulting list gives the list that deciding for [(readyNodes2, counts2)]
    alone gives.  In particular deciding twice for the same inputs changes
    nothing the second time. *)
Theorem updatePolicyConditions_overrides (conditions : ConditionList)
    (readyNodes1 readyNodes2 : Z) (counts1 counts2 : ConditionCount) :
  updatePolicyConditions (updatePolicyConditions conditions readyNodes1 counts1)
    readyNodes2 counts2
  = updatePolicyConditions conditions readyNodes2 counts2 /\
  updatePolicyConditions (updatePolicyConditions conditions readyNodes1 counts1)
    readyNodes1 counts1
  = updatePolicyConditions conditions readyNodes1 counts1.
Proof.
  assert (Hgen : forall r1 c1 r2 c2,
            updatePolicyConditions (updatePolicyConditions conditions r1 c1) r2 c2
            = updatePolicyConditions conditions r2 c2).
  { intros r1 c1 r2 c2.
    destruct (updatePolicyConditions_shape r1 c1) as [sd1 [sa1 [rs1 [md1 [ma1 H1]]]]].
    destruct (updatePolicyConditions_shape r2 c2) as [sd2 [sa2 [rs2 [md2 [ma2 H2]]]]].
    rewrite H2, H1, H2.
    rewrite (Set_Set_swap _ "Available" "Degraded") by discriminate.
    now rewrite (Set_Set_swap _ "Degraded" "Available") by discriminate. }
  split; apply Hgen.
Qed.

(** ** The types held by the list *)

Lemma hasType_In (l : ConditionList) (t : ConditionType) :
  hasType l t = true <-> In t (map Type_ l).
Proof.
  unfold hasType. rewrite existsb_exists, in_map_iff. split.
  - intros [c [Hin Heq]]. apply String.eqb_eq in Heq. eauto.
  - intros [c [Heq Hin]]. exists c. split; [assumption|]. now apply String.eqb_eq.
Qed.

Lemma Set_types' (l : ConditionList) (t : ConditionType)
    (s : corev1.ConditionStatus) (r : ConditionReason) (m : string) :
  map Type_ (ConditionList_Set l t s r m)
  = (map Type_ l ++ if hasType l t then [] else [t])%list.
Proof.
  rewrite Set_types. fold (hasType l t).
  destruct (hasType l t); [now rewrite app_nil_r | reflexivity].
Qed.

Lemma hasType_Set_other (l : ConditionList) (t t' : ConditionType)
    (s : corev1.ConditionStatus) (r : ConditionReason) (m : string) :
  t' <> t ->
  hasType (ConditionList_Set l t s r m) t' = hasType l t'.
Proof.
  intros Hneq.
  apply eq_true_iff_eq. rewrite !hasType_In, Set_types', in_app_iff.
  split; [|tauto].
  intros [Hin|Hin]; [assumption|].
  destruct (hasType l t); simpl in Hin; [contradiction|].
  destruct Hin as [Heq|[]]. congruence.
Qed.

Lemma Set_NoDup (l : ConditionList) (t : ConditionType)
    (s : corev1.ConditionStatus) (r : ConditionReason) (m : string) :
  NoDup (map Type_ l) -> NoDup (map Type_ (ConditionList_Set l t s r m)).
Proof.
  intros Hnd. rewrite Set_types'.
  destruct (hasType l t) eqn:Hhas; [now rewrite app_nil_r|].
  apply NoDup_app; [assumption | repeat constructor; simpl; tauto |].
  intros a Hin [Heq|[]]. subst a.
  apply hasType_In in Hin. congruence.
Qed.

(** X2.  The decision keeps the list well formed.  The types already in the
    list stay where they are; Degraded and then Available are appended at the
    end when they were missing, so the list grows by at most two entries; and
    a list with at most one condition per type still has at most one condition
    per type afterwards. *)
Theorem updatePolicyConditions_types (conditions : ConditionList)
    (readyNodes : Z) (counts : ConditionCount) :
  map Type_ (updatePolicyConditions conditions readyNodes counts)
  = (map Type_ conditions
       ++ (if hasType conditions "Degraded" then [] else ["Degraded"])
       ++ (if hasType conditions "Available" then [] else ["Available"]))%list /\
  (List.length conditions
   <= List.length (updatePolicyConditions conditions readyNodes counts)
   <= List.length conditions + 2)%nat /\
  (NoDup (map Type_ conditions) ->
   NoDup (map Type_ (updatePolicyConditions conditions readyNodes counts))).
Proof.
  destruct (updatePolicyConditions_shape readyNodes counts)
    as [sd [sa [rs [md [ma Hshape]]]]].
  rewrite Hshape.
  assert (Htypes :
    map Type_
      (ConditionList_Set (ConditionList_Set conditions "Degraded" sd rs md)
         "Available" sa rs ma)
    = (map Type_ conditions
         ++ (if hasType conditions "Degraded" then [] else ["Degraded"])
         ++ (if hasType conditions "Available" then [] else ["Available"]))%list).
  { rewrite !Set_types', hasType_Set_other by discriminate. now rewrite <- app_assoc. }
  split; [exact Htypes|]. split.
  - apply (f_equal (@List.length _)) in Htypes.
    rewrite length_map, !length_app, length_map in Htypes. rewrite Htypes.
    destruct (hasType conditions "Degraded"), (hasType conditions "Available");
      simpl; lia.
  - intros Hnd. now apply Set_NoDup, Set_NoDup.
Qed.

(** X2 on a list that holds a condition of another type and an Available
    condition: the order is kept and Degraded comes last. *)
Lemma updatePolicyConditions_types_witness :
  NoDup (map Type_
           [mkCondition "Initialized" corev1.ConditionTrue "Started" "";
            mkCondition "Available" corev1.ConditionFalse "FailedToConfigure" ""]) /\
  map Type_
    (updatePolicyConditions
       [mkCondition "Initialized" corev1.ConditionTrue "Started" "";
        mkCondition "Available" corev1.ConditionFalse "FailedToConfigure" ""]
       3 (mkConditionCount 3 3 0 0))
  = ["Initialized"; "Available"; "Degraded"] /\
  NoDup (map Type_
           (updatePolicyConditions
              [mkCondition "Initialized" corev1.ConditionTrue "Started" "";
               mkCondition "Available" corev1.ConditionFalse "FailedToConfigure" ""]
              3 (mkConditionCount 3 3 0 0))).
Proof.
  assert (Hnd : NoDup (map Type_
           [mkCondition "Initialized" corev1.ConditionTrue "Started" "";
            mkCondition "Available" corev1.ConditionFalse "FailedToConfigure" ""])).
  { simpl. repeat constructor; simpl; intuition discriminate. }
  split; [exact Hnd|]. split; [reflexivity|].
  exact (proj2 (proj2 (updatePolicyConditions_types _ 3 (mkConditionCount 3 3 0 0))) Hnd).
Defined.

(** ** When each status is reported *)

(** X3.  What the two statuses say about the counts.  After a decision the
    list holds a Degraded and an Available condition; both are Unknown exactly
    when fewer enactments have finished than nodes are ready; Degraded is True
    exactly when that is not so, some enactment matches and some enactment
    failed; Available is True exactly when that is not so and either no
    enactment matches or none failed. *)
Theorem updatePolicyConditions_statuses (conditions : ConditionList)
    (readyNodes : Z) (counts : ConditionCount) :
  exists degraded available,
    ConditionList_Find (updatePolicyConditions conditions readyNodes counts) "Degraded"
      = Some degraded /\
    ConditionList_Find (updatePolicyConditions conditions readyNodes counts) "Available"
      = Some available /\
    (Status degraded = corev1.ConditionUnknown <->
       numberOfFinishedEnactments counts < readyNodes) /\
    (Status available = corev1.ConditionUnknown <->
       numberOfFinishedEnactments counts < readyNodes) /\
    (Status degraded = corev1.ConditionTrue <->
       numberOfFinishedEnactments counts >= readyNodes /\
       Matching counts <> 0 /\ Failed counts > 0) /\
    (Status available = corev1.ConditionTrue <->
       numberOfFinishedEnactments counts >= readyNodes /\
       (Matching counts = 0 \/ Failed counts <= 0)).
Proof.
  unfold updatePolicyConditions; cbv zeta.
  destruct (Z.ltb_spec (numberOfFinishedEnactments counts) readyNodes) as [Hlt|Hge];
    [| destruct (Z.eqb_spec (Matching counts) 0) as [Hm|Hm];
       [| destruct (Z.gtb_spec (Failed counts) 0) as [Hf|Hf]]];
    [ unfold setPolicyProgressing
    | unfold setPolicyNotMatching
    | unfold setPolicyFailedToConfigure
    | unfold setPolicySuccess ];
    cbv zeta;
    do 2 eexists;
    (split; [apply two_upserts|]);
    (split; [apply two_upserts|]);
    simpl; repeat split; intros; try discriminate; try lia; intuition lia.
Qed.

(** ** The count of ready nodes, exactly *)

Lemma goint_wrap_add_l (a b : Z) : goint.wrap (goint.wrap a + b) = goint.wrap (a + b).
Proof.
  unfold goint.wrap.
  replace ((a + 2 ^ 63) mod 2 ^ 64 - 2 ^ 63 + b + 2 ^ 63)
    with ((a + 2 ^ 63) mod 2 ^ 64 + b) by lia.
  rewrite Zplus_mod_idemp_l. f_equal. f_equal. lia.
Qed.

(** The [(Ready, True)] entries of all nodes, in order. *)
Lemma countNodeConditions_wrap (n : Z) (node : corev1.Node) :
  goint.inRange n ->
  countNodeConditions n node
  = goint.wrap
      (n + Z.of_nat
             (List.length
                (filter isReadyTrue (corev1.Conditions (corev1.NodeStatus_ node))))).
Proof.
  unfold countNodeConditions.
  generalize (corev1.Conditions (corev1.NodeStatus_ node)) as cs.
  intros cs; revert n.
  induction cs as [|c cs IH]; intros n Hn; simpl.
  - rewrite Z.add_0_r. symmetry. now apply goint_wrap_inRange.
  - destruct (isReadyTrue c); simpl; [|now apply IH].
    rewrite IH by apply goint_wrap_is_inRange.
    unfold goint.add. rewrite goint_wrap_add_l. f_equal. lia.
Qed.

Lemma numberOfReadyNodes_wrap (nodes : list corev1.Node) :
  numberOfReadyNodes nodes
  = goint.wrap
      (Z.of_nat
         (List.length
            (flat_map
               (fun node => filter isReadyTrue (corev1.Conditions (corev1.NodeStatus_ node)))
               nodes))).
Proof.
  unfold numberOfReadyNodes.
  assert (Hgen : forall n,
    goint.inRange n ->
    fold_left countNodeConditions nodes n
    = goint.wrap
        (n + Z.of_nat
               (List.length
                  (flat_map
                     (fun node =>
                        filter isReadyTrue (corev1.Conditions (corev1.NodeStatus_ node)))
                     nodes)))).
  { induction nodes as [|node nodes IH]; intros n Hn; simpl.
    - rewrite Z.add_0_r. symmetry. now apply goint_wrap_inRange.
    - rewrite countNodeConditions_wrap by assumption.
      rewrite IH by apply goint_wrap_is_inRange.
      rewrite goint_wrap_add_l, length_app. f_equal. lia. }
  rewrite Hgen; [reflexivity|].
  unfold goint.inRange, goint.MinInt, goint.MaxInt. lia.
Qed.

Lemma filter_isReadyTrue_unready (node : corev1.Node) :
  nodeIsReady node = false ->
  filter isReadyTrue (corev1.Conditions (corev1.NodeStatus_ node)) = [].
Proof.
  unfold nodeIsReady.
  induction (corev1.Conditions (corev1.NodeStatus_ node)) as [|c cs IH]; simpl;
    [reflexivity|].
  destruct (isReadyTrue c); simpl; [discriminate | exact IH].
Qed.

(** The entries counted are those of the ready nodes. *)
Lemma ready_entries_filter (nodes : list corev1.Node) :
  flat_map (fun node => filter isReadyTrue (corev1.Conditions (corev1.NodeStatus_ node)))
    nodes
  = flat_map (fun node => filter isReadyTrue (corev1.Conditions (corev1.NodeStatus_ node)))
      (filter nodeIsReady nodes).
Proof.
  induction nodes as [|node nodes IH]; simpl; [reflexivity|].
  destruct (nodeIsReady node) eqn:Hready; simpl.
  - now rewrite IH.
  - now rewrite (filter_isReadyTrue_unready _ Hready).
Qed.

Lemma numberOfReadyNodes_none (nodes : list corev1.Node) :
  forallb (fun node => negb (nodeIsReady node)) nodes = true ->
  numberOfReadyNodes nodes = 0.
Proof.
  intros Hnone. rewrite numberOfReadyNodes_wrap, ready_entries_filter.
  assert (Hempty : filter nodeIsReady nodes = []).
  { induction nodes as [|node nodes IH]; simpl in *; [reflexivity|].
    apply andb_prop in Hnone as [Hnode Hrest].
    apply negb_true_iff in Hnode. rewrite Hnode. now apply IH. }
  rewrite Hempty. reflexivity.
Qed.

(** X4.  Nodes that are not ready do not count: a node without conditions,
    without a [Ready] condition, or whose [Ready] condition is [False] or
    [Unknown] leaves the count as it is, wherever it stands in the list.  The
    count over all nodes is the count over the ready ones, and it is 0 when no
    node is ready, in particular for the empty node list. *)
Theorem numberOfReadyNodes_ignores_unready (nodes : list corev1.Node) :
  numberOfReadyNodes nodes = numberOfReadyNodes (filter nodeIsReady nodes) /\
  (forallb (fun node => negb (nodeIsReady node)) nodes = true ->
   numberOfReadyNodes nodes = 0) /\
  numberOfReadyNodes [] = 0.
Proof.
  split; [now rewrite !numberOfReadyNodes_wrap, ready_entries_filter|].
  split; [apply numberOfReadyNodes_none | reflexivity].
Qed.

(** X4 on three nodes that are not ready, alone and mixed with ready ones. *)
Lemma numberOfReadyNodes_ignores_unready_witness :
  forallb (fun node => negb (nodeIsReady node)) contention.unreadyNodes = true /\
  numberOfReadyNodes contention.unreadyNodes = 0 /\
  numberOfReadyNodes (contention.unreadyNodes ++ scenario.threeNodes)%list
  = numberOfReadyNodes scenario.threeNodes.
Proof.
  split; [reflexivity|]. split.
  - exact (proj1 (proj2 (numberOfReadyNodes_ignores_unready contention.unreadyNodes))
             eq_refl).
  - exact (proj1 (numberOfReadyNodes_ignores_unready
                    (contention.unreadyNodes ++ scenario.threeNodes)%list)).
Defined.

(** X5.  The count does not depend on the order in which the API server
    lists the nodes. *)
Theorem numberOfReadyNodes_permutation (nodes nodes' : list corev1.Node) :
  Permutation nodes nodes' ->
  numberOfReadyNodes nodes = numberOfReadyNodes nodes'.
Proof.
  intros Hperm. rewrite !numberOfReadyNodes_wrap.
  do 2 f_equal. apply Permutation_length.
  now apply Permutation_flat_map.
Qed.

(** X5 on three ready nodes and one that is not, listed in two orders. *)
Lemma numberOfReadyNodes_permutation_witness :
  numberOfReadyNodes
    [scenario.readyNode "node01"; corev1.mkNode "node04" (corev1.mkNodeStatus []);
     scenario.readyNode "node02"]
  = numberOfReadyNodes
      [corev1.mkNode "node04" (corev1.mkNodeStatus []); scenario.readyNode "node02";
       scenario.readyNode "node01"].
Proof.
  apply numberOfReadyNodes_permutation.
  apply perm_trans with
    [corev1.mkNode "node04" (corev1.mkNodeStatus []); scenario.readyNode "node01";
     scenario.readyNode "node02"].
  - apply perm_swap.
  - apply perm_skip. apply perm_swap.
Defined.

(** X6.  Where every node lists [(Ready, True)] at most once and the nodes
    are few enough for an [int], the count is the number of ready nodes; it
    lies between 0 and the number of nodes. *)
Theorem numberOfReadyNodes_of_wellformed_nodes (nodes : list corev1.Node) :
  Forall (fun node =>
            (List.length (filter isReadyTrue (corev1.Conditions (corev1.NodeStatus_ node)))
             <= 1)%nat) nodes ->
  Z.of_nat (List.length nodes) <= goint.MaxInt ->
  numberOfReadyNodes nodes = Z.of_nat (List.length (filter nodeIsReady nodes)) /\
  0 <= numberOfReadyNodes nodes <= Z.of_nat (List.length nodes).
Proof.
  intros Hone Hmax.
  rewrite (numberOfReadyNodes_agrees nodes Hone Hmax). unfold readyNodeCount.
  split; [reflexivity|].
  pose proof (filter_length_le nodeIsReady nodes). lia.
Qed.

(** X6 on three ready nodes and three that are not. *)
Lemma numberOfReadyNodes_of_wellformed_nodes_witness :
  numberOfReadyNodes (scenario.threeNodes ++ contention.unreadyNodes)%list = 3 /\
  0 <= numberOfReadyNodes (scenario.threeNodes ++ contention.unreadyNodes)%list <= 6.
Proof.
  refine (numberOfReadyNodes_of_wellformed_nodes
            (scenario.threeNodes ++ contention.unreadyNodes)%list _ _).
  - repeat constructor.
  - discriminate.
Defined.

(** X7.  With no ready node the policy is never reported as progressing:
    for enactment counts that are not negative and whose sum fits an [int],
    the policy decided on has both conditions at True or False, none at
    Unknown.  This covers the cluster without nodes. *)
Theorem applyDecision_without_ready_nodes {Enactment : Type}
    (Count : list Enactment -> ConditionCount)
    (policy : NodeNetworkConfigurationPolicy)
    (enactments : list Enactment) (nodes : list corev1.Node) :
  forallb (fun node => negb (nodeIsReady node)) nodes = true ->
  0 <= Available (Count enactments) ->
  0 <= Failed (Count enactments) ->
  0 <= NotMatching (Count enactments) ->
  Available (Count enactments) + Failed (Count enactments) + NotMatching (Count enactments)
    <= goint.MaxInt ->
  exists degraded available,
    ConditionList_Find
      (Conditions (PolicyStatus (applyDecision Count policy enactments nodes))) "Degraded"
      = Some degraded /\
    ConditionList_Find
      (Conditions (PolicyStatus (applyDecision Count policy enactments nodes))) "Available"
      = Some available /\
    Status degraded <> corev1.ConditionUnknown /\
    Status available <> corev1.ConditionUnknown /\
    Reason available <> "ConfigurationProgressing".
Proof.
  intros Hnone Ha Hf Hn Hsum.
  unfold applyDecision; cbv zeta. simpl.
  rewrite (numberOfReadyNodes_none nodes Hnone).
  unfold updatePolicyConditions; cbv zeta.
  rewrite (numberOfFinishedEnactments_exact _ Ha Hf Hn Hsum).
  destruct (Z.ltb_spec
              (Available (Count enactments) + Failed (Count enactments)
                 + NotMatching (Count enactments)) 0) as [Hlt|_]; [lia|].
  destruct (Matching (Count enactments) =? 0); [| destruct (Failed (Count enactments) >? 0)];
    [ unfold setPolicyNotMatching
    | unfold setPolicyFailedToConfigure
    | unfold setPolicySuccess ];
    cbv zeta;
    do 2 eexists;
    (split; [apply two_upserts|]);
    (split; [apply two_upserts|]);
    simpl; repeat split; discriminate.
Qed.

(** X7 on the cluster without nodes and without enactments: the policy
    matches no node. *)
Lemma applyDecision_without_ready_nodes_witness :
  exists degraded available,
    ConditionList_Find
      (Conditions (PolicyStatus (applyDecision fake.Count (scenario.policy []) [] [])))
      "Degraded" = Some degraded /\
    ConditionList_Find
      (Conditions (PolicyStatus (applyDecision fake.Count (scenario.policy []) [] [])))
      "Available" = Some available /\
    Status degraded <> corev1.ConditionUnknown /\
    Status available <> corev1.ConditionUnknown /\
    Reason available <> "ConfigurationProgressing".
Proof.
  refine (applyDecision_without_ready_nodes fake.Count (scenario.policy []) [] []
            eq_refl _ _ _ _); simpl; discriminate.
Defined.

(** ** How a run of [Update] or [Reset] ends *)

Section Outcomes.

Context {W E Enactment : Type}.
Context `{errors.Wrapper E} `{apierrors.Classifier E}.

Variable Count : list Enactment -> ConditionCount.
Variable EnactmentPolicyLabel : string.
Variable cli : client.Client W E Enactment.
Variable policyKey : types.NamespacedName.

(** After [k] conflicted attempts the loop is where it would be had it been
    started in the world they left with [k] steps fewer, provided what it does
    from there does not depend on the conflict remembered. *)
Lemma onConflict_after_conflicts (fn : Action W E unit) (k : nat) (w wk : W) :
  attemptsConflicted fn k w wk ->
  forall (steps : nat) (last : option E) (r : Result E unit * W),
    (forall last', retry.onConflict steps fn last' wk = r) ->
    retry.onConflict (k + steps) fn last w = r.
Proof.
  induction 1 as [w | n w w1 w' [err [Hfn Hc]] _ IH]; intros steps last r Hrest.
  - apply Hrest.
  - simpl plus. rewrite onConflict_unfold, Hfn, Hc. now apply IH.
Qed.

(** The retry loop of the package after at most four conflicted attempts,
    when the next attempt settles the outcome. *)
Lemma DefaultRetry_after_conflicts (fn : Action W E unit) (k : nat) (w wk : W)
    (r : Result E unit * W) :
  attemptsConflicted fn k w wk ->
  (k <= 4)%nat ->
  (forall steps last', retry.onConflict (S steps) fn last' wk = r) ->
  retry.RetryOnConflict retry.DefaultRetry fn w = r.
Proof.
  intros Hk Hle Hnext. unfold retry.RetryOnConflict. simpl wait.Steps.
  replace 5%nat with (k + S (4 - k))%nat by lia.
  apply onConflict_after_conflicts with wk; [assumption|].
  intros last'. apply Hnext.
Qed.

Lemma onConflict_ok (fn : Action W E unit) (w w' : W) (u : unit) :
  fn w = (Ok u, w') ->
  forall steps last, retry.onConflict (S steps) fn last w = (Ok tt, w').
Proof. intros Hfn steps last. now rewrite onConflict_unfold, Hfn. Qed.

(** An attempt of [Update] whose reads succeed is as good as its status
    write. *)
Lemma updateClosure_reads (w w3 : W) (policy : NodeNetworkConfigurationPolicy)
    (enactments : list Enactment) (nodes : list corev1.Node) :
  updateReads EnactmentPolicyLabel cli policyKey w policy enactments nodes w3 ->
  updateClosure Count EnactmentPolicyLabel cli policyKey w
  = client.StatusUpdate cli (applyDecision Count policy enactments nodes) w3.
Proof.
  intros [w1 [w2 [Hget [Hlist Hnodes]]]].
  unfold updateClosure, bind, wrapping. now rewrite Hget, Hlist, Hnodes.
Qed.

Lemma resetClosure_read (w w1 : W) (policy : NodeNetworkConfigurationPolicy) :
  client.Get cli policyKey w = (Ok policy, w1) ->
  resetClosure cli policyKey w = client.StatusUpdate cli (withConditions policy []) w1.
Proof.
  intros Hget. unfold resetClosure, bind, wrapping. now rewrite Hget.
Qed.

(** X8.  [Update] succeeds as soon as one attempt goes through: after at
    most four attempts that ended in a conflict, an attempt whose three reads
    succeed and whose status write is accepted makes [Update] return [nil],
    and nothing is done after that write. *)
Theorem Update_succeeds_after_conflicts (k : nat) (w wk w3 w' : W)
    (policy : NodeNetworkConfigurationPolicy)
    (enactments : list Enactment) (nodes : list corev1.Node) :
  attemptsConflicted (updateClosure Count EnactmentPolicyLabel cli policyKey) k w wk ->
  (k <= 4)%nat ->
  updateReads EnactmentPolicyLabel cli policyKey wk policy enactments nodes w3 ->
  client.StatusUpdate cli (applyDecision Count policy enactments nodes) w3 = (Ok tt, w') ->
  Update Count EnactmentPolicyLabel cli policyKey w = (Ok tt, w').
Proof.
  intros Hk Hle Hreads Hwrite.
  apply DefaultRetry_after_conflicts with k wk; try assumption.
  intros steps last'. apply onConflict_ok with tt.
  now rewrite (updateClosure_reads _ _ _ _ _ Hreads).
Qed.

(** X9.  A status write that fails with an error that is not a conflict ends
    [Update] at once, also after earlier conflicts, and the caller gets the
    error of the write as it is: unlike the errors of the reads it is not
    wrapped. *)
Theorem Update_write_failure (k : nat) (w wk w3 w' : W) (err : E)
    (policy : NodeNetworkConfigurationPolicy)
    (enactments : list Enactment) (nodes : list corev1.Node) :
  attemptsConflicted (updateClosure Count EnactmentPolicyLabel cli policyKey) k w wk ->
  (k <= 4)%nat ->
  updateReads EnactmentPolicyLabel cli policyKey wk policy enactments nodes w3 ->
  client.StatusUpdate cli (applyDecision Count policy enactments nodes) w3 = (Err err, w') ->
  apierrors.IsConflict err = false ->
  Update Count EnactmentPolicyLabel cli policyKey w = (Err err, w').
Proof.
  intros Hk Hle Hreads Hwrite Hnc.
  apply DefaultRetry_after_conflicts with k wk; try assumption.
  intros steps last'. apply onConflict_stops; [|assumption].
  now rewrite (updateClosure_reads _ _ _ _ _ Hreads).
Qed.

(** X10.  [Update] gives up after five attempts: when four attempts in a row
    ended in a conflict and the fifth does too, [Update] returns the error of
    the fifth attempt and leaves the world as that attempt left it; there is no
    sixth attempt. *)
Theorem Update_gives_up (w w4 w' : W) (err : E) :
  attemptsConflicted (updateClosure Count EnactmentPolicyLabel cli policyKey) 4 w w4 ->
  updateClosure Count EnactmentPolicyLabel cli policyKey w4 = (Err err, w') ->
  apierrors.IsConflict err = true ->
  Update Count EnactmentPolicyLabel cli policyKey w = (Err err, w').
Proof.
  intros Hfour Hfifth Hc.
  apply (onConflict_after_conflicts _ 4 w w4 Hfour 1%nat None).
  intros last'. rewrite onConflict_unfold, Hfifth, Hc. reflexivity.
Qed.

(** X11.  When [Reset] cannot read the policy and the wrapped error is not
    classified as a conflict, [Reset] returns the error wrapped with
    "getting policy failed" and makes no further call: the outcome is the same
    for every client that answers this [Get] the same way, whatever its status
    write would do. *)
Theorem Reset_read_failure (w w' : W) (err : E) :
  client.Get cli policyKey w = (Err err, w') ->
  apierrors.IsConflict (errors.Wrap err "getting policy failed") = false ->
  forall cli' : client.Client W E Enactment,
    client.Get cli' policyKey w = client.Get cli policyKey w ->
    resetClosure cli' policyKey w = (Err (errors.Wrap err "getting policy failed"), w') /\
    Reset cli' policyKey w = (Err (errors.Wrap err "getting policy failed"), w').
Proof.
  intros Hget Hnc cli' Hsame.
  assert (Hattempt : resetClosure cli' policyKey w
                     = (Err (errors.Wrap err "getting policy failed"), w')).
  { unfold resetClosure, bind, wrapping. now rewrite Hsame, Hget. }
  split; [assumption|].
  unfold Reset, retry.RetryOnConflict. simpl wait.Steps.
  now apply onConflict_stops.
Qed.

(** X12.  [Reset] succeeds as soon as one attempt goes through: after at
    most four attempts that ended in a conflict, an attempt that reads the
    policy and has its write of the emptied policy accepted makes [Reset]
    return [nil]. *)
Theorem Reset_succeeds_after_conflicts (k : nat) (w wk w1 w' : W)
    (policy : NodeNetworkConfigurationPolicy) :
  attemptsConflicted (resetClosure cli policyKey) k w wk ->
  (k <= 4)%nat ->
  client.Get cli policyKey wk = (Ok policy, w1) ->
  client.StatusUpdate cli (withConditions policy []) w1 = (Ok tt, w') ->
  Reset cli policyKey w = (Ok tt, w').
Proof.
  intros Hk Hle Hget Hwrite.
  apply DefaultRetry_after_conflicts with k wk; try assumption.
  intros steps last'. apply onConflict_ok with tt.
  now rewrite (resetClosure_read _ _ _ Hget).
Qed.

(** X13.  A status write of [Reset] that fails with an error that is not a
    conflict ends [Reset] at once, also after earlier conflicts, and the caller
    gets the error of the write as it is, not wrapped. *)
Theorem Reset_write_failure (k : nat) (w wk w1 w' : W) (err : E)
    (policy : NodeNetworkConfigurationPolicy) :
  attemptsConflicted (resetClosure cli policyKey) k w wk ->
  (k <= 4)%nat ->
  client.Get cli policyKey wk = (Ok policy, w1) ->
  client.StatusUpdate cli (withConditions policy []) w1 = (Err err, w') ->
  apierrors.IsConflict err = false ->
  Reset cli policyKey w = (Err err, w').
Proof.
  intros Hk Hle Hget Hwrite Hnc.
  apply DefaultRetry_after_conflicts with k wk; try assumption.
  intros steps last'. apply onConflict_stops; [|assumption].
  now rewrite (resetClosure_read _ _ _ Hget).
Qed.

(** X14.  [Reset] gives up after five attempts: when four attempts in a row
    ended in a conflict and the fifth does too, [Reset] returns the error of
    the fifth attempt and leaves the world as that attempt left it. *)
Theorem Reset_gives_up (w w4 w' : W) (err : E) :
  attemptsConflicted (resetClosure cli policyKey) 4 w w4 ->
  resetClosure cli policyKey w4 = (Err err, w') ->
  apierrors.IsConflict err = true ->
  Reset cli policyKey w = (Err err, w').
Proof.
  intros Hfour Hfifth Hc.
  apply (onConflict_after_conflicts _ 4 w w4 Hfour 1%nat None).
  intros last'. rewrite onConflict_unfold, Hfifth, Hc. reflexivity.
Qed.

(** X15.  What a successful [Update] writes differs from what it read only
    in the Degraded and the Available condition: the policy whose status write
    was accepted has the name and the resource version of the policy read in
    that attempt, its conditions of every other type are the ones read, and it
    has a Degraded and an Available condition. *)
Theorem Update_writes_two_conditions (w w' : W) :
  Update Count EnactmentPolicyLabel cli policyKey w = (Ok tt, w') ->
  exists wk policy enactments nodes w3 written,
    updateReads EnactmentPolicyLabel cli policyKey wk policy enactments nodes w3 /\
    client.StatusUpdate cli written w3 = (Ok tt, w') /\
    Name written = Name policy /\
    ResourceVersion written = ResourceVersion policy /\
    (forall other, other <> "Degraded" -> other <> "Available" ->
       ConditionList_Find (Conditions (PolicyStatus written)) other
       = ConditionList_Find (Conditions (PolicyStatus policy)) other) /\
    ConditionList_Find (Conditions (PolicyStatus written)) "Degraded" <> None /\
    ConditionList_Find (Conditions (PolicyStatus written)) "Available" <> None.
Proof.
  intros Hrun.
  destruct (Update_ok_inv _ _ _ _ _ _ Hrun)
    as [wk [policy [enactments [nodes [w3 [_ [Hreads Hwrite]]]]]]].
  exists wk, policy, enactments, nodes, w3, (applyDecision Count policy enactments nodes).
  split; [assumption|]. split; [assumption|].
  unfold applyDecision; cbv zeta. simpl.
  destruct (updatePolicyConditions_shape (numberOfReadyNodes nodes) (Count enactments))
    as [sd [sa [rs [md [ma Hshape]]]]].
  rewrite Hshape.
  destruct (two_upserts (Conditions (PolicyStatus policy)) sd sa rs rs md ma)
    as [Hd [Ha Hother]].
  cbv zeta in Hd, Ha, Hother.
  split; [reflexivity|]. split; [reflexivity|].
  split; [exact Hother|].
  rewrite Hd, Ha. split; discriminate.
Qed.

End Outcomes.

(** ** The outcomes on the in-memory API server *)

Ltac conflicted_attempt :=
  eapply oneMoreAttempt; [eexists; split; [lazy; reflexivity | reflexivity]|].

(** X8 where another writer wins the race twice: the third attempt goes
    through and its decision is what the server holds. *)
Lemma Update_succeeds_after_conflicts_witness :
  exists final,
    Update fake.Count fake.EnactmentPolicyLabel fake.cli scenario.policyKey
      (contention.updateLoses 2) = (Ok tt, final) /\
    fake.policies final
    = [mkPolicy "vlan100" 10
         (mkPolicyStatus
            [mkCondition "Degraded" corev1.ConditionUnknown "ConfigurationProgressing" "";
             mkCondition "Available" corev1.ConditionUnknown "ConfigurationProgressing"
               "Policy is progressing 2/3 nodes finished"])].
Proof.
  eexists. split.
  - eapply (Update_succeeds_after_conflicts fake.Count fake.EnactmentPolicyLabel fake.cli
              scenario.policyKey 2).
    + conflicted_attempt. conflicted_attempt. apply noAttempt.
    + repeat constructor.
    + do 2 eexists. repeat split; reflexivity.
    + reflexivity.
  - reflexivity.
Defined.

(** X9 where the server fails the status write: the caller gets the server's
    error, not wrapped, and the stored policy is what it was. *)
Lemma Update_write_failure_witness :
  Update fake.Count fake.EnactmentPolicyLabel fake.cli scenario.policyKey
    (scenario.outageAt 3)
  = (Err (fake.StatusError fake.StatusReasonInternalError),
     scenario.quiet scenario.degradedBefore).
Proof.
  eapply (Update_write_failure fake.Count fake.EnactmentPolicyLabel fake.cli
            scenario.policyKey 0).
  - apply noAttempt.
  - repeat constructor.
  - do 2 eexists. repeat split; reflexivity.
  - reflexivity.
  - reflexivity.
Defined.

(** X10 where another writer wins the race five times. *)
Lemma Update_gives_up_witness :
  exists final,
    Update fake.Count fake.EnactmentPolicyLabel fake.cli scenario.policyKey
      (contention.updateLoses 5)
    = (Err (fake.StatusError fake.StatusReasonConflict), final) /\
    fake.policies final
    = [mkPolicy "vlan100" 12 (mkPolicyStatus scenario.degradedBefore)].
Proof.
  eexists. split.
  - eapply (Update_gives_up fake.Count fake.EnactmentPolicyLabel fake.cli
              scenario.policyKey).
    + do 4 conflicted_attempt. apply noAttempt.
    + lazy; reflexivity.
    + reflexivity.
  - reflexivity.
Defined.

(** X11 where the policy is gone. *)
Lemma Reset_read_failure_witness :
  Reset fake.cli scenario.policyKey scenario.policyMissing
  = (Err (fake.withMessage (fake.StatusError fake.StatusReasonNotFound)
            "getting policy failed"),
     scenario.policyMissing).
Proof.
  refine (proj2 (Reset_read_failure fake.cli scenario.policyKey scenario.policyMissing
                   scenario.policyMissing (fake.StatusError fake.StatusReasonNotFound)
                   eq_refl eq_refl fake.cli eq_refl)).
Defined.

(** X12 where another writer wins the race once: the second attempt empties
    the list. *)
Lemma Reset_succeeds_after_conflicts_witness :
  exists final,
    Reset fake.cli scenario.policyKey (contention.resetLoses 1) = (Ok tt, final) /\
    fake.policies final = [mkPolicy "vlan100" 9 (mkPolicyStatus [])].
Proof.
  eexists. split.
  - eapply (Reset_succeeds_after_conflicts fake.cli scenario.policyKey 1).
    + conflicted_attempt. apply noAttempt.
    + repeat constructor.
    + reflexivity.
    + reflexivity.
  - reflexivity.
Defined.

(** X13 where the server fails the status write of [Reset]. *)
Lemma Reset_write_failure_witness :
  Reset fake.cli scenario.policyKey (scenario.outageAt 1)
  = (Err (fake.StatusError fake.StatusReasonInternalError),
     scenario.quiet scenario.degradedBefore).
Proof.
  eapply (Reset_write_failure fake.cli scenario.policyKey 0).
  - apply noAttempt.
  - repeat constructor.
  - reflexivity.
  - reflexivity.
  - reflexivity.
Defined.

(** X14 where another writer wins the race five times: the conditions are
    not reset. *)
Lemma Reset_gives_up_witness :
  exists final,
    Reset fake.cli scenario.policyKey (contention.resetLoses 5)
    = (Err (fake.StatusError fake.StatusReasonConflict), final) /\
    fake.policies final
    = [mkPolicy "vlan100" 12 (mkPolicyStatus scenario.degradedBefore)].
Proof.
  eexists. split.
  - eapply (Reset_gives_up fake.cli scenario.policyKey).
    + do 4 conflicted_attempt. apply noAttempt.
    + lazy; reflexivity.
    + reflexivity.
  - reflexivity.
Defined.

(** X15 on a quiet server that holds a policy with two conditions. *)
Lemma Update_writes_two_conditions_witness :
  exists wk policy enactments nodes w3 written,
    updateReads fake.EnactmentPolicyLabel fake.cli scenario.policyKey wk
      policy enactments nodes w3 /\
    client.StatusUpdate fake.cli written w3
    = (Ok tt,
       snd (Update fake.Count fake.EnactmentPolicyLabel fake.cli scenario.policyKey
              (scenario.quiet scenario.degradedBefore))) /\
    Name written = Name policy /\
    ResourceVersion written = ResourceVersion policy /\
    (forall other, other <> "Degraded" -> other <> "Available" ->
       ConditionList_Find (Conditions (PolicyStatus written)) other
       = ConditionList_Find (Conditions (PolicyStatus policy)) other) /\
    ConditionList_Find (Conditions (PolicyStatus written)) "Degraded" <> None /\
    ConditionList_Find (Conditions (PolicyStatus written)) "Available" <> None.
Proof.
  exact (Update_writes_two_conditions fake.Count fake.EnactmentPolicyLabel fake.cli
           scenario.policyKey (scenario.quiet scenario.degradedBefore) _ eq_refl).
Defined.

(** ** The calls an attempt does not make *)

(** X16.  A failed read is the last call of its attempt.  When the read of
    the policy fails, the enactments and the nodes are not listed; when the
    listing of the enactments fails, the nodes are not listed; and in all three
    cases no status is written: the attempt has the same outcome with every
    client that agrees with this one on the calls up to the failed read,
    whatever its other calls would answer. *)
Theorem updateClosure_stops_at_failed_read {W E Enactment : Type}
    `{errors.Wrapper E} `{apierrors.Classifier E}
    (Count : list Enactment -> ConditionCount) (EnactmentPolicyLabel : string)
    (cli : client.Client W E Enactment) (policyKey : types.NamespacedName)
    (w w' : W) (err : E) (context : string) :
  ReadFailure EnactmentPolicyLabel cli policyKey w err context w' ->
  forall cli' : client.Client W E Enactment,
    client.Get cli' = client.Get cli ->
    (context <> "getting policy failed" ->
     client.ListEnactments cli' = client.ListEnactments cli) ->
    (context = "getting nodes failed" ->
     client.ListNodes cli' = client.ListNodes cli) ->
    updateClosure Count EnactmentPolicyLabel cli' policyKey w
    = (Err (errors.Wrap err context), w').
Proof.
  intros Hfail cli' Hget' Hlist' Hnodes'.
  apply updateClosure_read_failure.
  destruct Hfail as [e w1 Hget | policy w1 e w2 Hget Hlist
                    | policy w1 es w2 e w3 Hget Hlist Hnodes].
  - apply PolicyReadFailed. now rewrite Hget'.
  - apply EnactmentsReadFailed with policy w1.
    + now rewrite Hget'.
    + rewrite Hlist' by discriminate. assumption.
  - apply NodesReadFailed with policy w1 es w2.
    + now rewrite Hget'.
    + rewrite Hlist' by discriminate. assumption.
    + rewrite Hnodes' by reflexivity. assumption.
Qed.

(** X16 where the server fails the listing of the enactments, with a client
    whose listing of the nodes and whose status write would both fail with a
    conflict: neither is called. *)
Lemma updateClosure_stops_at_failed_read_witness :
  updateClosure fake.Count fake.EnactmentPolicyLabel
    (client.mkClient fake.Cluster fake.error fake.Enactment
       (client.Get fake.cli) (client.ListEnactments fake.cli)
       (fun c => (Err (fake.StatusError fake.StatusReasonConflict), c))
       (fun _ c => (Err (fake.StatusError fake.StatusReasonConflict), c)))
    scenario.policyKey (scenario.outageAt 1)
  = (Err (fake.withMessage (fake.StatusError fake.StatusReasonInternalError)
            "getting enactments failed"),
     scenario.quiet scenario.degradedBefore).
Proof.
  refine (updateClosure_stops_at_failed_read fake.Count fake.EnactmentPolicyLabel fake.cli
            scenario.policyKey (scenario.outageAt 1) (scenario.quiet scenario.degradedBefore)
            (fake.StatusError fake.StatusReasonInternalError) "getting enactments failed"
            _ _ eq_refl (fun _ => eq_refl) _).
  - eapply EnactmentsReadFailed; reflexivity.
  - discriminate.
Defined.
